(** * A shallow embedding of [trr.py]: the GROMACS .trr trajectory reader

    The development follows the two classes of the source file:
    [TRRHeader] (one frame header decoded from a binary stream) and [TRR]
    (the frame index, the block geometry, the atom selection and the
    lazily cached block readers).

    Conventions.
    - A file is a [list byte]; the open file handle is a record holding the
      contents, the current position and a log of the read requests issued
      so far (the log is ghost state: it lets statements speak about which
      bytes were asked for and about "no further read").
    - Python integers are [Z]; [//] is [Z.div] (both round towards minus
      infinity) guarded by an explicit zero test.
    - A raised exception is a value of [exn]; a computation returns
      [Ok v] or [Raise e].  An exception aborts the call that raised it.
    - Floating point values are never computed with: a float read from the
      file is carried as its IEEE-754 big-endian bit pattern.
    - numpy keeps offsets and sizes as 64-bit integers; they are sums of a
      file position and a few 32-bit fields, so they are modelled in [Z]
      without wrap-around. *)

From Stdlib Require Import ZArith List Bool Lia.
From Stdlib Require Import Sorting.Sorted.
From Stdlib Require Import Strings.Byte.
Import ListNotations.
Local Open Scope Z_scope.

(** ** Exceptions and the error monad *)

Inductive exn : Type :=
| StructError        (* struct.error: unpack requires a buffer of n bytes *)
| ZeroDivisionError  (* integer division or modulo by zero *)
| IndexError         (* index out of range / mask shape mismatch *)
| ValueError         (* max() of empty sequence, negative dimension, reshape, broadcast *)
| OSError.           (* seek to a negative offset *)

Inductive result (A : Type) : Type :=
| Ok (a : A)
| Raise (e : exn).
Arguments Ok {A} a.
Arguments Raise {A} e.

Definition bind {A B : Type} (m : result A) (k : A -> result B) : result B :=
  match m with
  | Ok a => k a
  | Raise e => Raise e
  end.

Notation "x <- m ;; k" := (bind m (fun x => k))
  (at level 61, m at next level, right associativity).
Notation "' p <- m ;; k" := (bind m (fun x => match x with p => k end))
  (at level 61, p pattern, m at next level, right associativity).

(** ** Python list primitives *)

(** [l[i]] with Python's negative indices. *)
Definition getitem {A : Type} (l : list A) (i : Z) : result A :=
  let n := Z.of_nat (length l) in
  let j := if i <? 0 then i + n else i in
  if (j <? 0) || (n <=? j) then Raise IndexError
  else match nth_error l (Z.to_nat j) with
       | Some a => Ok a
       | None => Raise IndexError
       end.

(** Clamp of a slice bound for a positive step: [slice.indices] of Python. *)
Definition clamp (n : Z) (i : Z) : Z :=
  let j := if i <? 0 then i + n else i in
  Z.max 0 (Z.min n j).

(** [l[a:b]] with explicit bounds (either may be negative). *)
Definition getslice {A : Type} (l : list A) (a b : Z) : list A :=
  let n := Z.of_nat (length l) in
  let lo := clamp n a in
  let hi := clamp n b in
  firstn (Z.to_nat (hi - lo)) (skipn (Z.to_nat lo) l).

(** [max(l)]: ValueError on an empty sequence. *)
Definition py_max (l : list Z) : result Z :=
  match l with
  | [] => Raise ValueError
  | x :: xs => Ok (fold_left Z.max xs x)
  end.

(** [sum(l)] on integers. *)
Definition py_sum (l : list Z) : Z := fold_left Z.add l 0.

(** [a // b] on Python integers. *)
Definition floordiv (a b : Z) : result Z :=
  if b =? 0 then Raise ZeroDivisionError else Ok (a / b).

(** Arithmetic on [np.int64] scalars wraps around: the result of an
    operation is its value modulo 2^64, taken in [-2^63, 2^63). *)
Definition wrap_int64 (z : Z) : Z :=
  (z + 9223372036854775808) mod 18446744073709551616 - 9223372036854775808.

(** ** The binary stream *)

Record stream : Type := mkStream {
  data : list byte;          (* the contents of the file *)
  pos : Z;                   (* current position, never negative *)
  reads : list (Z * Z)       (* log: (position, bytes requested), oldest first *)
}.

Definition open (contents : list byte) : stream :=
  {| data := contents; pos := 0; reads := [] |}.

(** [stream.read(n)] for [n >= 0] (the source asks for 76, 16 or 8 bytes):
    at most [n] bytes from the current position; a short, possibly empty,
    result at end of file. *)
Definition read (n : Z) (s : stream) : list byte * stream :=
  let got := firstn (Z.to_nat n) (skipn (Z.to_nat (pos s)) (data s)) in
  (got, {| data := data s;
           pos := pos s + Z.of_nat (length got);
           reads := reads s ++ [(pos s, n)] |}).

(** [stream.seek(p, 0)]: beyond the end is allowed, a negative offset is not. *)
Definition seek (p : Z) (s : stream) : result stream :=
  if p <? 0 then Raise OSError
  else Ok {| data := data s; pos := p; reads := reads s |}.

(** [stream.seek(0, 2) and stream.tell()]: the size of the file. *)
Definition file_size (s : stream) : Z := Z.of_nat (length (data s)).

(** ** struct.unpack *)

Definition byte_val (b : byte) : Z := Z.of_N (Byte.to_N b).

(** Big-endian unsigned value of a byte string. *)
Definition be_unsigned (bs : list byte) : Z :=
  fold_left (fun acc b => acc * 256 + byte_val b) bs 0.

(** ['>l']: big-endian signed 32-bit integer. *)
Definition be_int32 (bs : list byte) : Z :=
  let u := be_unsigned bs in
  if 2147483648 <=? u then u - 4294967296 else u.

(** [n] consecutive fields of [w] bytes each. *)
Fixpoint fields (w : nat) (n : nat) (bs : list byte) : list (list byte) :=
  match n with
  | O => []
  | S n' => firstn w bs :: fields w n' (skipn w bs)
  end.

(** [unpack('>l...l', bs)] with [n] fields: the buffer must hold exactly
    [4 * n] bytes. *)
Definition unpack_l (n : nat) (bs : list byte) : result (list Z) :=
  if Nat.eqb (length bs) (4 * n)
  then Ok (map be_int32 (fields 4 n bs))
  else Raise StructError.

(** A float as read from the file: its big-endian IEEE-754 bytes
    (4 for ['>f'], 8 for ['>d']). *)
Definition pyfloat : Type := list byte.

(** [unpack('>ff', bs)] ([w = 4]) and [unpack('>dd', bs)] ([w = 8]). *)
Definition unpack_2f (w : nat) (bs : list byte) : result (pyfloat * pyfloat) :=
  if Nat.eqb (length bs) (2 * w)
  then Ok (firstn w bs, skipn w bs)
  else Raise StructError.

(** ** class TRRHeader *)

Module TRRHeader.

Record t : Type := mk {
  tag : list byte;
  _rawheader : list Z;     (* the 13 integer fields *)
  step : Z;
  double : bool;
  positions : Z;
  velocities : Z;
  forces : Z;
  natoms : Z;
  time : pyfloat;          (* _rawheader[13] in the source *)
  lambd : pyfloat;         (* _rawheader[14] in the source *)
  fsize : Z;
  bsize : Z;
  hsize : Z
}.

(** [TRRHeader.__init__(self, stream)]. *)
Definition __init__ (s : stream) : result (t * stream) :=
  let '(header, s) := read 76 s in
  let tag := getslice header 0 8 in
  raw <- unpack_l 13 (skipn 24 header) ;;
  step <- getitem raw (-2) ;;
  m <- py_max (getslice raw (-6) (-3)) ;;
  n <- getitem raw (-3) ;;
  q <- floordiv m n ;;
  r <- floordiv q 3 ;;
  let double := r =? 8 in
  let '(fl, s) := if double then read 16 s else read 8 s in
  '(time, lambd) <- unpack_2f (if double then 8 else 4) fl ;;
  positions <- getitem raw 7 ;;
  velocities <- getitem raw 8 ;;
  forces <- getitem raw 9 ;;
  natoms <- getitem raw 10 ;;
  let fsize := py_sum (getslice raw 0 10) in
  bsize <- py_max (getslice raw 7 10) ;;
  let hsize := if double then 164 else 120 in
  Ok (mk tag raw step double positions velocities forces natoms
         time lambd fsize bsize hsize, s).

End TRRHeader.

(** ** numpy pieces used by [TRR] *)

(** One ['>f4'] item: the 32-bit pattern of a big-endian binary32 float. *)
Definition f4 : Type := Z.

Definition be_f4 (bs : list byte) : f4 := be_unsigned bs.

(** A block array of shape [(frames, axis1, 3)]: the frame axis is the
    length of [frames_data]; the atom axis is kept explicitly because an
    array may have no frame at all. *)
Record ndarray : Type := mkArray {
  axis1 : Z;
  frames_data : list (list (list f4))
}.

(** [np.fromfile(stream, dtype='>f4', count=count)]: as many whole items as
    the file still holds, at most [count] of them (all of them when [count]
    is negative). *)
Definition fromfile_f4 (count : Z) (s : stream) : list f4 * stream :=
  let avail := skipn (Z.to_nat (pos s)) (data s) in
  let whole := Z.of_nat (length avail) / 4 in
  let n := if count <? 0 then whole else Z.min count whole in
  let items := map be_f4 (fields 4 (Z.to_nat n) avail) in
  (items, {| data := data s;
             pos := pos s + 4 * Z.of_nat (length items);
             reads := reads s ++ [(pos s, 4 * count)] |}).

Fixpoint rows3 (n : nat) (l : list f4) : list (list f4) :=
  match n with
  | O => []
  | S n' => firstn 3 l :: rows3 n' (skipn 3 l)
  end.

(** [a.reshape((-1, 3))] on a flat array. *)
Definition reshape3 (l : list f4) : result (list (list f4)) :=
  if Z.of_nat (length l) mod 3 =? 0
  then Ok (rows3 (Nat.div (length l) 3) l)
  else Raise ValueError.

(** [X[frame] = a] where [X[frame]] has shape [(m, 3)] and [a] has shape
    [(r, 3)]: equal shapes are copied, a single row is broadcast, anything
    else cannot be broadcast. *)
Definition assign_frame (m : Z) (a : list (list f4)) : result (list (list f4)) :=
  let r := Z.of_nat (length a) in
  if r =? m then Ok a
  else if r =? 1 then Ok (repeat (hd [] a) (Z.to_nat m))
  else Raise ValueError.


(** [row[mask]]: the entries of [row] where [mask] holds. *)
Fixpoint compress {A : Type} (mask : list bool) (row : list A) : list A :=
  match mask, row with
  | b :: mask', x :: row' => if b then x :: compress mask' row' else compress mask' row'
  | _, _ => []
  end.

(** [np.where(a)[0][-1]]: the position of the last non-zero entry. *)
Fixpoint nonzero_from (i : Z) (l : list Z) : list Z :=
  match l with
  | [] => []
  | x :: l' => if x =? 0 then nonzero_from (i + 1) l' else i :: nonzero_from (i + 1) l'
  end.

Definition where_last (l : list Z) : result Z := getitem (nonzero_from 0 l) (-1).

Fixpoint map2 {A B C : Type} (f : A -> B -> C) (l : list A) (l' : list B) : list C :=
  match l, l' with
  | a :: l, b :: l' => f a b :: map2 f l l'
  | _, _ => []
  end.

(** [np.array(list_of_triples).T]: three rows, or no row at all for an
    empty list (shape [(0,)]). *)
Definition transpose3 (l : list (Z * Z * Z)) : list (list Z) :=
  match l with
  | [] => []
  | _ => [ map (fun x => fst (fst x)) l; map (fun x => snd (fst x)) l; map snd l ]
  end.

(** [m[i:] += d]: every row from index [i] on. *)
Fixpoint iadd_from (i : nat) (d : list Z) (m : list (list Z)) : list (list Z) :=
  match m with
  | [] => []
  | r :: m' =>
      match i with
      | O => map2 Z.add r d :: iadd_from O d m'
      | S i' => r :: iadd_from i' d m'
      end
  end.

(** [m[i] += d]: IndexError when there is no such row. *)
Fixpoint iadd_at (i : nat) (d : list Z) (m : list (list Z)) : result (list (list Z)) :=
  match m, i with
  | [], _ => Raise IndexError
  | r :: m', O => Ok (map2 Z.add r d :: m')
  | r :: m', S i' => m'' <- iadd_at i' d m' ;; Ok (r :: m'')
  end.

(** ** Atom selections *)

(** An element of a Python list or tuple given as selection. *)
Inductive pyval : Type :=
| PyBool (b : bool)
| PyInt (z : Z).

Definition int_of (v : pyval) : Z :=
  match v with
  | PyBool b => if b then 1 else 0
  | PyInt z => z
  end.

Definition is_bool (v : pyval) : bool :=
  match v with PyBool _ => true | PyInt _ => false end.

(** The values [TRR.__init__] dispatches on with [isinstance]. *)
Inductive atom_selection : Type :=
| SelInt (k : Z)                          (* int *)
| SelSlice (start stop step : option Z)   (* slice *)
| SelMask (m : list bool)                 (* np.ndarray, dtype bool *)
| SelArray (a : list Z)                   (* np.ndarray of dtype int64 *)
| SelList (l : list pyval).               (* list or tuple *)

(** The indices selected by [slice(start, stop, step)] on an axis of length
    [n], as [slice.indices] and [range] compute them. *)
Definition slice_indices (n : Z) (start stop step : option Z) : result (list Z) :=
  let st := match step with Some k => k | None => 1 end in
  if st =? 0 then Raise ValueError else
  let lower := if st <? 0 then -1 else 0 in
  let upper := if st <? 0 then n - 1 else n in
  let bound (o : option Z) (dflt : Z) :=
    match o with
    | None => dflt
    | Some i => if i <? 0 then Z.max (i + n) lower else Z.min i upper
    end in
  let a := bound start (if st <? 0 then upper else lower) in
  let b := bound stop (if st <? 0 then lower else upper) in
  let len :=
    if st <? 0
    then (if b <? a then (a - b - 1) / (- st) + 1 else 0)
    else (if a <? b then (b - a - 1) / st + 1 else 0) in
  Ok (map (fun i => a + Z.of_nat i * st) (seq 0 (Z.to_nat len))).

(** [row[idx]] for an integer index array: every index must lie in
    [-n .. n-1]. *)
Fixpoint take {A : Type} (row : list A) (idx : list Z) : result (list A) :=
  match idx with
  | [] => Ok []
  | i :: idx' => x <- getitem row i ;; xs <- take row idx' ;; Ok (x :: xs)
  end.

(** [row[mask]] for a boolean index array: the mask must be as long as the
    axis it indexes. *)
Definition take_mask {A : Type} (row : list A) (mask : list bool) : result (list A) :=
  if Nat.eqb (length mask) (length row) then Ok (compress mask row)
  else Raise IndexError.

(** [row[sel]]: one frame of [X[:, sel]].  An int never reaches this
    point: [TRR.__init__] stores [slice(0, k)] in its place (lemma
    [init_selection_not_int]); indexing with an int would drop the
    axis, which [ndarray] cannot express. *)
Definition index_row {A : Type} (sel : atom_selection) (row : list A) : result (list A) :=
  match sel with
  | SelInt k => Raise IndexError
  | SelSlice a b c => idx <- slice_indices (Z.of_nat (length row)) a b c ;; take row idx
  | SelMask m => take_mask row m
  | SelArray a => take row a
  | SelList l =>
      match l with
      | [] => Raise IndexError
      | _ => if forallb is_bool l
             then take_mask row (map (fun v => negb (int_of v =? 0)) l)
             else take row (map int_of l)
      end
  end.

(** ** class TRR *)

Module TRR.

Record t : Type := mk {
  trr : stream;
  frames : list Z;
  headers : list TRRHeader.t;
  times : list pyfloat;
  _sizes : list (list Z);
  _have : list (list bool);
  _starts : list (list Z);
  natoms : Z;
  selection : atom_selection;
  _maxidx : Z;
  _positions : option ndarray;     (* hasattr(self, '_positions') *)
  _velocities : option ndarray;
  _forces : option ndarray
}.

(** The [while pos < size] loop of [__init__].  The loop of the source need
    not terminate (a header may declare sizes that do not advance [pos]), so
    the model takes fuel: [None] means the loop was still running when the
    fuel ran out.  [headers[-1]] is the header appended in the same
    iteration. *)
Fixpoint index_loop (fuel : nat) (size : Z) (s : stream) (pos : Z)
    (frames : list Z) (headers : list TRRHeader.t)
    : option (result (stream * list Z * list TRRHeader.t)) :=
  match fuel with
  | O => None
  | S fuel' =>
      if pos <? size then
        match (s <- seek pos s ;; TRRHeader.__init__ s) with
        | Raise e => Some (Raise e)
        | Ok (h, s) =>
            index_loop fuel' size s
              (pos + (TRRHeader.fsize h + TRRHeader.hsize h - 36))
              (frames ++ [pos]) (headers ++ [h])
        end
      else Some (Ok (s, frames, headers))
  end.

(** The [isinstance] cascade at the end of [__init__]: the stored
    selection and [_maxidx].  The maximum of an index array is an
    [np.int64] scalar, so adding 1 to it wraps; the maximum of a list is a
    Python integer, and adding 1 to it does not. *)
Definition resolve (natoms : Z) (sel : atom_selection) : result (atom_selection * Z) :=
  match sel with
  | SelInt k => Ok (SelSlice (Some 0) (Some k) None, Z.min k natoms)
  | SelSlice a b c =>
      match b with
      | Some stop => Ok (sel, Z.min stop natoms)
      | None => Ok (sel, natoms)
      end
  | SelMask m =>
      i <- where_last (map (fun b : bool => if b then 1 else 0) m) ;;
      Ok (sel, i)
  | SelArray a =>
      mx <- py_max a ;;
      Ok (sel, wrap_int64 (mx + 1))
  | SelList l =>
      mx <- py_max (map int_of l) ;;
      let selmax := mx + 1 in
      if 2 <? selmax then Ok (sel, selmax)
      else i <- where_last (map int_of l) ;; Ok (sel, i)
  end.

(** The block geometry: [_sizes], [_have], [_starts]. *)
Definition geometry (frames : list Z) (headers : list TRRHeader.t)
    : result (list (list Z) * list (list bool) * list (list Z)) :=
  let sizes := transpose3
    (map (fun h => (TRRHeader.positions h, TRRHeader.velocities h, TRRHeader.forces h))
         headers) in
  let have := map (map (fun z => negb (z =? 0))) sizes in
  h0 <- getitem headers 0 ;;
  let starts := map (fun _ : list bool =>
                       map (fun f => 0 + f + TRRHeader.hsize h0) frames) have in
  sizes0 <- getitem sizes 0 ;;
  let starts := iadd_from 1 sizes0 starts in
  sizes1 <- getitem sizes 1 ;;
  starts <- iadd_at 2 sizes1 starts ;;
  Ok (sizes, have, starts).

(** [TRR.__init__(self, filename, selection)]; [contents] is what
    [open(filename, 'rb')] gives access to. *)
Definition __init__ (fuel : nat) (contents : list byte) (sel : atom_selection)
    : option (result t) :=
  let s := open contents in
  let size := file_size s in
  match index_loop fuel size s 0 [] [] with
  | None => None
  | Some (Raise e) => Some (Raise e)
  | Some (Ok (s, frames, headers)) =>
      Some (
        let times := map TRRHeader.time headers in
        '(sizes, have, starts) <- geometry frames headers ;;
        h0 <- getitem headers 0 ;;
        let natoms := TRRHeader.natoms h0 in
        '(sel', maxidx) <- resolve natoms sel ;;
        Ok (mk s frames headers times sizes have starts natoms sel' maxidx
               None None None))
  end.

Definition with_trr (s : stream) (self : t) : t :=
  mk s (frames self) (headers self) (times self) (_sizes self) (_have self)
     (_starts self) (natoms self) (selection self) (_maxidx self)
     (_positions self) (_velocities self) (_forces self).

(** The [for frame, pos in enumerate(...)] loop of [_read]: one seek and
    one [np.fromfile] of [3 * maxidx] items per qualifying frame. *)
Fixpoint read_frames (maxidx : Z) (starts : list Z) (s : stream)
    : result (list (list (list f4)) * stream) :=
  match starts with
  | [] => Ok ([], s)
  | p :: rest =>
      s <- seek p s ;;
      let '(items, s) := fromfile_f4 (3 * maxidx) s in
      a <- reshape3 items ;;
      fr <- assign_frame maxidx a ;;
      '(frs, s) <- read_frames maxidx rest s ;;
      Ok (fr :: frs, s)
  end.

(** [X[:, sel]]: the selection is resolved against the atom axis once and
    applied to every frame; it is checked even when there is no frame. *)
Definition index_axis1 (sel : atom_selection) (X : ndarray) : result ndarray :=
  picked <- index_row sel (map Z.of_nat (seq 0 (Z.to_nat (axis1 X)))) ;;
  Ok {| axis1 := Z.of_nat (length picked);
        frames_data :=
          map (fun fr => map (fun i => nth (Z.to_nat i) fr []) picked)
              (frames_data X) |}.

(** [TRR._read(self, k)].  [np.zeros] refuses a negative dimension. *)
Definition _read (k : Z) (self : t) : result (ndarray * t) :=
  have_k <- getitem (_have self) k ;;
  if _maxidx self <? 0 then Raise ValueError else
  starts_k <- getitem (_starts self) k ;;
  '(frs, s) <- read_frames (_maxidx self) (compress have_k starts_k) (trr self) ;;
  X <- index_axis1 (selection self)
         {| axis1 := _maxidx self; frames_data := frs |} ;;
  Ok (X, with_trr s self).

(** The three cached properties. *)
Definition positions (self : t) : result (ndarray * t) :=
  match _positions self with
  | Some a => Ok (a, self)
  | None =>
      '(a, self) <- _read 0 self ;;
      Ok (a, mk (trr self) (frames self) (headers self) (times self)
                (_sizes self) (_have self) (_starts self) (natoms self)
                (selection self) (_maxidx self)
                (Some a) (_velocities self) (_forces self))
  end.

Definition velocities (self : t) : result (ndarray * t) :=
  match _velocities self with
  | Some a => Ok (a, self)
  | None =>
      '(a, self) <- _read 1 self ;;
      Ok (a, mk (trr self) (frames self) (headers self) (times self)
                (_sizes self) (_have self) (_starts self) (natoms self)
                (selection self) (_maxidx self)
                (_positions self) (Some a) (_forces self))
  end.

Definition forces (self : t) : result (ndarray * t) :=
  match _forces self with
  | Some a => Ok (a, self)
  | None =>
      '(a, self) <- _read 2 self ;;
      Ok (a, mk (trr self) (frames self) (headers self) (times self)
                (_sizes self) (_have self) (_starts self) (natoms self)
                (selection self) (_maxidx self)
                (_positions self) (_velocities self) (Some a))
  end.

End TRR.

(** ** Synthetic files

    Concrete inputs are assembled with a small writer for the frame layout
    (the source only reads): a 24-byte identification, thirteen big-endian
    32-bit integers, time and lambda, then the payload. *)

Definition byte_of (z : Z) : byte :=
  match Byte.of_N (Z.to_N (z mod 256)) with
  | Some b => b
  | None => x00
  end.

Definition enc32 (z : Z) : list byte :=
  [ byte_of (z / 16777216); byte_of (z / 65536); byte_of (z / 256); byte_of z ].

Definition zeros (n : Z) : list byte := repeat x00 (Z.to_nat n).

(** One frame: [w] is the width of a real (4 or 8); the box always has
    nine reals; [x], [v], [f] are the declared block sizes; the payload
    (box and blocks) is filled with the byte [fill]. *)
Definition frame_bytes (w : Z) (x v f natoms step : Z) (fill : byte) : list byte :=
  enc32 1993 ++ enc32 13 ++ enc32 12 ++ zeros 12
  ++ enc32 0 ++ enc32 0 ++ enc32 (9 * w) ++ enc32 0 ++ enc32 0 ++ enc32 0 ++ enc32 0
  ++ enc32 x ++ enc32 v ++ enc32 f ++ enc32 natoms ++ enc32 step ++ enc32 0
  ++ zeros (2 * w)
  ++ repeat fill (Z.to_nat (9 * w + x + v + f)).

(** ** Vocabulary of the statements *)

(** [slice(None)], the default value of the [selection] argument. *)
Definition default_selection : atom_selection := SelSlice None None None.

(** Bytes left between the current position and the end of the file. *)
Definition remaining (s : stream) : nat :=
  length (skipn (Z.to_nat (pos s)) (data s)).

(** The thirteen integers declared in the 76-byte prefix found at the
    current position (block sizes, atom count, step, NRE). *)
Definition header_ints (s : stream) : list Z :=
  map be_int32
      (fields 4 13 (skipn 24 (firstn 76 (skipn (Z.to_nat (pos s)) (data s))))).

Definition declared_natoms (s : stream) : Z := nth 10 (header_ints s) 0.

(** The precision the decoder will detect from the declared sizes. *)
Definition declared_double (s : stream) : bool :=
  let r := header_ints s in
  Z.max (Z.max (nth 7 r 0) (nth 8 r 0)) (nth 9 r 0) / nth 10 r 0 / 3 =? 8.

(** Bytes one frame occupies in the file: the 76-byte prefix, time and
    lambda (4 or 8 bytes each), then the declared payload. *)
Definition frame_length (h : TRRHeader.t) : Z :=
  (if TRRHeader.double h then 92 else 84) + TRRHeader.fsize h.

(** [well_formed contents p hs]: from byte [p] to the end, [contents] is a
    sequence of complete frames laid end to end, with headers [hs]: every
    declared size is non-negative, the atom count is positive and the frame
    fits in the file. *)
Inductive well_formed (contents : list byte) : Z -> list TRRHeader.t -> Prop :=
| wf_end : well_formed contents (Z.of_nat (length contents)) []
| wf_frame (p : Z) (h : TRRHeader.t) (s' : stream) (hs : list TRRHeader.t) :
    0 <= p ->
    TRRHeader.__init__ {| data := contents; pos := p; reads := [] |} = Ok (h, s') ->
    Forall (fun z => 0 <= z) (firstn 10 (TRRHeader._rawheader h)) ->
    0 < TRRHeader.natoms h ->
    p + frame_length h <= Z.of_nat (length contents) ->
    well_formed contents (p + frame_length h) hs ->
    well_formed contents p (h :: hs).

(** The offsets the index scan visits from [p] on, for headers [hs]. *)
Fixpoint offsets_from (p : Z) (hs : list TRRHeader.t) : list Z :=
  match hs with
  | [] => []
  | h :: hs' =>
      p :: offsets_from (p + (TRRHeader.fsize h + TRRHeader.hsize h - 36)) hs'
  end.




(** Every read request of the log asks for one header piece: the 76-byte
    prefix, or time and lambda (8 or 16 bytes). *)
Definition header_reads_only (log : list (Z * Z)) : Prop :=
  Forall (fun r => snd r = 76 \/ snd r = 8 \/ snd r = 16) log.

(** The rows [np.fromfile(..., '>f4', count = 3 * maxidx)] followed by
    [reshape((-1, 3))] yields at byte [p] when the file holds that many
    bytes: [maxidx] rows of three 4-byte items. *)
Definition decode_block (contents : list byte) (maxidx : Z) (p : Z) : list (list f4) :=
  rows3 (Z.to_nat maxidx)
        (map be_f4 (fields 4 (Z.to_nat (3 * maxidx)) (skipn (Z.to_nat p) contents))).


(** The failure kinds of the error-handling design and the exception of
    the source that stands for each, where there is one: a division by
    zero in precision detection is an integrity failure, a buffer too short
    for [unpack] is a truncated stream.  No exception of the source stands
    for a selection failure. *)
Inductive error_kind : Type := IoError | IntegrityError | SelectionError.

Definition kind_of (e : exn) : option error_kind :=
  match e with
  | ZeroDivisionError => Some IntegrityError
  | StructError => Some IoError
  | IndexError | ValueError | OSError => None
  end.

(** The position of the index scan after the frames [hs], from [p]. *)
Definition end_from (p : Z) (hs : list TRRHeader.t) : Z :=
  fold_left (fun q h => q + (TRRHeader.fsize h + TRRHeader.hsize h - 36)) hs p.

(** The three block types, their accessor and their cache slot. *)
Inductive block : Type := Positions | Velocities | Forces.

Definition accessor (b : block) : TRR.t -> result (ndarray * TRR.t) :=
  match b with
  | Positions => TRR.positions
  | Velocities => TRR.velocities
  | Forces => TRR.forces
  end.

Definition slot (b : block) : TRR.t -> option ndarray :=
  match b with
  | Positions => TRR._positions
  | Velocities => TRR._velocities
  | Forces => TRR._forces
  end.

(** [reachable t0 t]: [t] is what [t0] has become after some successful
    accessor calls, in any order. *)
Inductive reachable (t0 : TRR.t) : TRR.t -> Prop :=
| reach_here : reachable t0 t0
| reach_call (t : TRR.t) (b : block) (X : ndarray) (t' : TRR.t) :
    reachable t0 t -> accessor b t = Ok (X, t') -> reachable t0 t'.

(** [self.tag] replaced, everything else kept. *)
Definition with_tag (tag : list byte) (h : TRRHeader.t) : TRRHeader.t :=
  TRRHeader.mk tag (TRRHeader._rawheader h) (TRRHeader.step h) (TRRHeader.double h)
    (TRRHeader.positions h) (TRRHeader.velocities h) (TRRHeader.forces h)
    (TRRHeader.natoms h) (TRRHeader.time h) (TRRHeader.lambd h)
    (TRRHeader.fsize h) (TRRHeader.bsize h) (TRRHeader.hsize h).

(** The index of a block type in [_sizes], [_have] and [_starts], and the
    size a header declares for it. *)
Definition block_index (b : block) : Z :=
  match b with Positions => 0 | Velocities => 1 | Forces => 2 end.

Definition declared_size (b : block) (h : TRRHeader.t) : Z :=
  match b with
  | Positions => TRRHeader.positions h
  | Velocities => TRRHeader.velocities h
  | Forces => TRRHeader.forces h
  end.

(** *** Concrete files *)

(** One single-precision frame: 2 atoms, positions only. *)
Definition single_frame : list byte := frame_bytes 4 24 0 0 2 7 x01.

Definition two_single_frames : list byte := single_frame ++ single_frame.

(** One double-precision frame: 1 atom, positions only, zero payload. *)
Definition double_frame : list byte := frame_bytes 8 24 0 0 1 7 x00.

Definition two_double_frames : list byte := double_frame ++ double_frame.

(** Two single-precision frames of different atom counts (1, then 2),
    each with positions and velocities. *)
Definition mixed_frames : list byte :=
  frame_bytes 4 12 12 0 1 7 x01 ++ frame_bytes 4 24 24 0 2 8 x01.

(** A complete header that declares no atom. *)
Definition no_atom_frame : list byte := frame_bytes 4 0 0 0 0 7 x00.

(** The headers of the frames above, as the decoder returns them. *)
Definition single_header : TRRHeader.t :=
  {| TRRHeader.tag := enc32 1993 ++ enc32 13;
     TRRHeader._rawheader := [0; 0; 36; 0; 0; 0; 0; 24; 0; 0; 2; 7; 0];
     TRRHeader.step := 7;
     TRRHeader.double := false;
     TRRHeader.positions := 24;
     TRRHeader.velocities := 0;
     TRRHeader.forces := 0;
     TRRHeader.natoms := 2;
     TRRHeader.time := zeros 4;
     TRRHeader.lambd := zeros 4;
     TRRHeader.fsize := 60;
     TRRHeader.bsize := 24;
     TRRHeader.hsize := 120 |}.

Definition double_header : TRRHeader.t :=
  {| TRRHeader.tag := enc32 1993 ++ enc32 13;
     TRRHeader._rawheader := [0; 0; 72; 0; 0; 0; 0; 24; 0; 0; 1; 7; 0];
     TRRHeader.step := 7;
     TRRHeader.double := true;
     TRRHeader.positions := 24;
     TRRHeader.velocities := 0;
     TRRHeader.forces := 0;
     TRRHeader.natoms := 1;
     TRRHeader.time := zeros 8;
     TRRHeader.lambd := zeros 8;
     TRRHeader.fsize := 96;
     TRRHeader.bsize := 24;
     TRRHeader.hsize := 164 |}.

(** * Properties *)

(** ** Lists and fields *)

Lemma fields_length (w n : nat) (bs : list byte) : length (fields w n bs) = n.
Proof.
  revert bs; induction n as [|n IH]; intros bs; simpl; [reflexivity|].
  now rewrite IH.
Qed.

Lemma header_ints_length (s : stream) : length (header_ints s) = 13%nat.
Proof. unfold header_ints. now rewrite length_map, fields_length. Qed.

Lemma unpack_l_length (n : nat) (bs : list byte) (raw : list Z) :
  unpack_l n bs = Ok raw -> length raw = n.
Proof.
  unfold unpack_l. destruct (Nat.eqb _ _); [|discriminate].
  intros H; injection H as <-. now rewrite length_map, fields_length.
Qed.

(** A list of thirteen elements, spelled out. *)
Lemma list13 {A : Type} (l : list A) :
  length l = 13%nat ->
  exists a0 a1 a2 a3 a4 a5 a6 a7 a8 a9 a10 a11 a12,
    l = [a0; a1; a2; a3; a4; a5; a6; a7; a8; a9; a10; a11; a12].
Proof.
  intros H.
  do 13 (destruct l as [|? l]; [discriminate H|]).
  destruct l; [|discriminate H].
  repeat eexists.
Qed.

Lemma read_prefix (s : stream) :
  (76 <= remaining s)%nat ->
  unpack_l 13 (skipn 24 (fst (read 76 s))) = Ok (header_ints s).
Proof.
  unfold remaining, read, unpack_l, header_ints; cbn [fst data pos]; intros H.
  rewrite length_skipn, length_firstn.
  change (Z.to_nat 76) with 76%nat.
  replace (Nat.eqb _ _) with true; [reflexivity|].
  symmetry; apply Nat.eqb_eq. lia.
Qed.

(** ** The header decoder *)

Section Decoder.

Variable s : stream.
Hypothesis Hprefix : (76 <= remaining s)%nat.

Lemma s1_pos : pos (snd (read 76 s)) = pos s + 76.
Proof.
  unfold read; cbn [snd pos]. rewrite length_firstn.
  unfold remaining in Hprefix. change (Z.to_nat 76) with 76%nat. lia.
Qed.

(** With a complete prefix the decoder fails on a zero atom count and
    otherwise goes on to read time and lambda. *)
Lemma init_after_prefix :
  TRRHeader.__init__ s =
  if declared_natoms s =? 0 then Raise ZeroDivisionError
  else
    let raw := header_ints s in
    let double := declared_double s in
    let '(fl, s2) := if double then read 16 (snd (read 76 s))
                     else read 8 (snd (read 76 s)) in
    '(time, lambd) <- unpack_2f (if double then 8 else 4) fl ;;
    Ok (TRRHeader.mk (getslice (fst (read 76 s)) 0 8) raw (nth 11 raw 0) double
          (nth 7 raw 0) (nth 8 raw 0) (nth 9 raw 0) (nth 10 raw 0)
          time lambd (py_sum (firstn 10 raw))
          (Z.max (Z.max (nth 7 raw 0) (nth 8 raw 0)) (nth 9 raw 0))
          (if double then 164 else 120), s2).
Proof.
  unfold TRRHeader.__init__, declared_natoms, declared_double.
  destruct (read 76 s) as [header s1'] eqn:Hr.
  pose proof (read_prefix s Hprefix) as Hu. rewrite Hr in Hu. simpl fst in Hu.
  rewrite Hu.
  destruct (list13 _ (header_ints_length s))
    as (a0&a1&a2&a3&a4&a5&a6&a7&a8&a9&a10&a11&a12&E).
  rewrite E. set (raw := [a0; a1; a2; a3; a4; a5; a6; a7; a8; a9; a10; a11; a12]).
  cbn [bind].
  change (getitem raw (-2)) with (Ok a11).
  change (getitem raw (-3)) with (Ok a10).
  change (getitem raw 7) with (Ok a7).
  change (getitem raw 8) with (Ok a8).
  change (getitem raw 9) with (Ok a9).
  change (getitem raw 10) with (Ok a10).
  change (getslice raw (-6) (-3)) with [a7; a8; a9].
  change (getslice raw 7 10) with [a7; a8; a9].
  change (getslice raw 0 10) with (firstn 10 raw).
  change (nth 7 raw 0) with a7. change (nth 8 raw 0) with a8.
  change (nth 9 raw 0) with a9. change (nth 10 raw 0) with a10.
  change (nth 11 raw 0) with a11.
  cbn [bind py_max fold_left]. unfold floordiv.
  destruct (a10 =? 0); [reflexivity|].
  cbn [bind]. change (3 =? 0) with false. cbv iota. cbn [bind fst snd].
  destruct (Z.max (Z.max a7 a8) a9 / a10 / 3 =? 8).
  - destruct (read 16 s1') as [fl s2]. destruct (unpack_2f 8 fl) as [[tm lm]|e]; reflexivity.
  - destruct (read 8 s1') as [fl s2]. destruct (unpack_2f 4 fl) as [[tm lm]|e]; reflexivity.
Qed.

End Decoder.

Lemma init_Ok_prefix (s : stream) (h : TRRHeader.t) (s' : stream) :
  TRRHeader.__init__ s = Ok (h, s') -> (76 <= remaining s)%nat.
Proof.
  unfold TRRHeader.__init__, read, unpack_l, remaining.
  cbn [bind].
  destruct (Nat.eqb _ _) eqn:E; [|discriminate].
  intros _. apply Nat.eqb_eq in E.
  rewrite length_skipn, length_firstn in E.
  change (Z.to_nat 76) with 76%nat in E. lia.
Qed.

(** What a successful decode returns and how far it moves the stream. *)
Lemma init_Ok_inv (s : stream) (h : TRRHeader.t) (s' : stream) :
  0 <= pos s ->
  TRRHeader.__init__ s = Ok (h, s') ->
  declared_natoms s <> 0 /\
  TRRHeader._rawheader h = header_ints s /\
  TRRHeader.double h = declared_double s /\
  TRRHeader.positions h = nth 7 (header_ints s) 0 /\
  TRRHeader.velocities h = nth 8 (header_ints s) 0 /\
  TRRHeader.forces h = nth 9 (header_ints s) 0 /\
  TRRHeader.natoms h = declared_natoms s /\
  TRRHeader.fsize h = py_sum (firstn 10 (header_ints s)) /\
  TRRHeader.hsize h = (if TRRHeader.double h then 164 else 120) /\
  data s' = data s /\
  pos s' = pos s + (if TRRHeader.double h then 92 else 84) /\
  reads s' = reads s ++ [(pos s, 76); (pos s + 76, if TRRHeader.double h then 16 else 8)] /\
  (Z.to_nat (if TRRHeader.double h then 92 else 84) <= remaining s)%nat.
Proof.
  intros Hpos H.
  pose proof (init_Ok_prefix _ _ _ H) as Hp.
  rewrite (init_after_prefix s Hp) in H.
  destruct (declared_natoms s =? 0) eqn:En; [discriminate|].
  apply Z.eqb_neq in En.
  pose proof (s1_pos s Hp) as Hp1.
  assert (Hread : forall n, 0 <= n ->
            read n (snd (read 76 s)) =
            (firstn (Z.to_nat n) (skipn (Z.to_nat (pos s) + 76) (data s)),
             {| data := data s;
                pos := pos s + 76 + Z.min n (Z.of_nat (remaining s) - 76);
                reads := reads s ++ [(pos s, 76); (pos s + 76, n)] |})).
  { intros n Hn. unfold read at 1. rewrite Hp1.
    unfold read; cbn [snd data pos reads].
    replace (Z.to_nat (pos s + 76)) with (Z.to_nat (pos s) + 76)%nat by lia.
    rewrite length_firstn, length_skipn, <- app_assoc. unfold remaining in *.
    rewrite length_skipn in *. cbn [app]. do 2 f_equal. lia. }
  cbv zeta in H.
  destruct (declared_double s) eqn:Ed.
  - rewrite (Hread 16) in H by lia. unfold unpack_2f in H.
    destruct (Nat.eqb _ _) eqn:El; [|discriminate]. cbn [bind] in H.
    injection H as <- <-. cbn [TRRHeader.double TRRHeader._rawheader
      TRRHeader.positions TRRHeader.velocities TRRHeader.forces TRRHeader.natoms
      TRRHeader.fsize TRRHeader.hsize data pos reads].
    apply Nat.eqb_eq in El. rewrite length_firstn, length_skipn in El.
    unfold remaining in *. rewrite length_skipn in *.
    repeat apply conj; try reflexivity; try assumption; try lia.
  - rewrite (Hread 8) in H by lia. unfold unpack_2f in H.
    destruct (Nat.eqb _ _) eqn:El; [|discriminate]. cbn [bind] in H.
    injection H as <- <-. cbn [TRRHeader.double TRRHeader._rawheader
      TRRHeader.positions TRRHeader.velocities TRRHeader.forces TRRHeader.natoms
      TRRHeader.fsize TRRHeader.hsize data pos reads].
    apply Nat.eqb_eq in El. rewrite length_firstn, length_skipn in El.
    unfold remaining in *. rewrite length_skipn in *.
    repeat apply conj; try reflexivity; try assumption; try lia.
Qed.

(** A complete header with a non-zero atom count always decodes. *)
Lemma init_total (s : stream) :
  0 <= pos s ->
  (Z.to_nat (if declared_double s then 92 else 84) <= remaining s)%nat ->
  declared_natoms s <> 0 ->
  exists h s', TRRHeader.__init__ s = Ok (h, s').
Proof.
  intros Hpos Hrem Hn.
  assert (Hp : (76 <= remaining s)%nat) by (destruct (declared_double s); lia).
  rewrite (init_after_prefix s Hp).
  apply Z.eqb_neq in Hn. rewrite Hn. cbv zeta.
  pose proof (s1_pos s Hp) as Hp1.
  assert (Hlen : forall n, 0 <= n -> (Z.to_nat (76 + n) <= remaining s)%nat ->
            length (fst (read n (snd (read 76 s)))) = Z.to_nat n).
  { intros n Hn0 Hr. unfold read at 1. cbn [fst]. rewrite Hp1.
    unfold read; cbn [snd data]. rewrite length_firstn, length_skipn.
    unfold remaining in Hr. rewrite length_skipn in Hr. lia. }
  destruct (declared_double s).
  - specialize (Hlen 16 ltac:(lia) Hrem).
    destruct (read 16 _) as [fl s2]. cbn [fst] in Hlen.
    unfold unpack_2f. rewrite Hlen.
    change (Nat.eqb (Z.to_nat 16) (2 * 8)) with true. cbn [bind]. eauto.
  - specialize (Hlen 8 ltac:(lia) Hrem).
    destruct (read 8 _) as [fl s2]. cbn [fst] in Hlen.
    unfold unpack_2f. rewrite Hlen.
    change (Nat.eqb (Z.to_nat 8) (2 * 4)) with true. cbn [bind]. eauto.
Qed.

(** The decoded header depends on the bytes and the position only, not on
    what was read before. *)
Lemma init_same_bytes (s t : stream) (h : TRRHeader.t) (s' : stream) :
  data t = data s -> pos t = pos s ->
  TRRHeader.__init__ s = Ok (h, s') ->
  exists t', TRRHeader.__init__ t = Ok (h, t').
Proof.
  destruct s as [d p l1], t as [d' p' l2]. cbn [data pos]. intros -> -> H.
  pose proof (init_Ok_prefix _ _ _ H) as Hp.
  assert (Hp' : (76 <= remaining (mkStream d p l2))%nat) by exact Hp.
  rewrite (init_after_prefix _ Hp) in H. rewrite (init_after_prefix _ Hp').
  change (declared_natoms (mkStream d p l2)) with (declared_natoms (mkStream d p l1)).
  change (declared_double (mkStream d p l2)) with (declared_double (mkStream d p l1)).
  change (header_ints (mkStream d p l2)) with (header_ints (mkStream d p l1)).
  destruct (declared_natoms _ =? 0); [discriminate|].
  cbv zeta in *.
  destruct (declared_double _); unfold read in *; cbn [fst snd data pos reads] in *;
    match type of H with
    | context [unpack_2f ?w ?fl] => destruct (unpack_2f w fl) as [[tm lm]|e]
    end; cbn [bind] in *; try discriminate;
    injection H as <- _; eauto.
Qed.

Lemma init_zero_atoms (s : stream) :
  (76 <= remaining s)%nat ->
  declared_natoms s = 0 ->
  TRRHeader.__init__ s = Raise ZeroDivisionError.
Proof.
  intros Hp Hn. rewrite (init_after_prefix s Hp), Hn. reflexivity.
Qed.

(** C5: a frame header whose declared atom count is zero makes precision
    detection fail: the decoder raises the division-by-zero exception,
    which is the integrity failure of the error design, instead of
    returning a header with some default precision. *)
Theorem zero_atoms_raises (s : stream) :
  (76 <= remaining s)%nat ->
  declared_natoms s = 0 ->
  exists e,
    TRRHeader.__init__ s = Raise e /\
    e = ZeroDivisionError /\
    kind_of e = Some IntegrityError.
Proof.
  intros Hp Hn. exists ZeroDivisionError.
  repeat apply conj; [apply init_zero_atoms; assumption | reflexivity | reflexivity].
Qed.

Lemma zero_atoms_raises_witness :
  (76 <= remaining (open no_atom_frame))%nat /\
  declared_natoms (open no_atom_frame) = 0 /\
  exists e,
    TRRHeader.__init__ (open no_atom_frame) = Raise e /\
    e = ZeroDivisionError /\
    kind_of e = Some IntegrityError.
Proof.
  assert (H1 : (76 <= remaining (open no_atom_frame))%nat)
    by (apply Nat.leb_le; vm_compute; reflexivity).
  assert (H2 : declared_natoms (open no_atom_frame) = 0)
    by (vm_compute; reflexivity).
  exact (conj H1 (conj H2 (zero_atoms_raises (open no_atom_frame) H1 H2))).
Defined.

(** C2, as the code has it: on a stream that holds a complete header with
    a non-zero atom count, the decoder returns a header and has consumed
    exactly 84 bytes (single precision) or 92 bytes (double precision): the
    76-byte prefix plus time and lambda.  The header's [hsize] is 120 or
    164: it also counts the box that follows and is not read here. *)
Theorem header_consumes (s : stream) :
  0 <= pos s ->
  (Z.to_nat (if declared_double s then 92 else 84) <= remaining s)%nat ->
  declared_natoms s <> 0 ->
  exists h s',
    TRRHeader.__init__ s = Ok (h, s') /\
    TRRHeader.double h = declared_double s /\
    pos s' - pos s = (if TRRHeader.double h then 92 else 84) /\
    TRRHeader.hsize h = (if TRRHeader.double h then 164 else 120) /\
    data s' = data s.
Proof.
  intros Hpos Hrem Hn.
  destruct (init_total s Hpos Hrem Hn) as (h & s' & H).
  exists h, s'. split; [exact H|].
  destruct (init_Ok_inv s h s' Hpos H)
    as (_ & _ & Hd & _ & _ & _ & _ & _ & Hh & Hdata & Hp & _).
  repeat apply conj; try assumption. lia.
Qed.

Lemma header_consumes_witness :
  0 <= pos (open single_frame) /\
  (Z.to_nat (if declared_double (open single_frame) then 92 else 84)
     <= remaining (open single_frame))%nat /\
  declared_natoms (open single_frame) <> 0 /\
  exists h s',
    TRRHeader.__init__ (open single_frame) = Ok (h, s') /\
    TRRHeader.double h = declared_double (open single_frame) /\
    pos s' - pos (open single_frame) = (if TRRHeader.double h then 92 else 84) /\
    TRRHeader.hsize h = (if TRRHeader.double h then 164 else 120) /\
    data s' = data (open single_frame).
Proof.
  assert (H1 : 0 <= pos (open single_frame)) by (vm_compute; discriminate).
  assert (H2 : (Z.to_nat (if declared_double (open single_frame) then 92 else 84)
                  <= remaining (open single_frame))%nat)
    by (apply Nat.leb_le; vm_compute; reflexivity).
  assert (H3 : declared_natoms (open single_frame) <> 0)
    by (vm_compute; discriminate).
  exact (conj H1 (conj H2 (conj H3 (header_consumes (open single_frame) H1 H2 H3)))).
Defined.

(** C2 as stated fails: on a single-precision frame the decoder returns a
    header of [hsize] 120 after consuming 84 bytes. *)
Lemma header_consumes_less_than_hsize :
  exists h s',
    TRRHeader.__init__ (open single_frame) = Ok (h, s') /\
    TRRHeader.double h = false /\
    TRRHeader.hsize h = 120 /\
    pos s' - pos (open single_frame) = 84 /\
    pos s' - pos (open single_frame) <> TRRHeader.hsize h.
Proof.
  vm_compute. do 2 eexists.
  split; [reflexivity|]. cbn. repeat apply conj; try reflexivity; discriminate.
Qed.

(** ** The index scan *)

Lemma fold_add_nonneg (l : list Z) (acc : Z) :
  Forall (fun z => 0 <= z) l -> 0 <= acc -> 0 <= fold_left Z.add l acc.
Proof.
  revert acc; induction l as [|x l IH]; intros acc Hl Hacc; simpl; [assumption|].
  inversion Hl; subst. apply IH; [assumption | lia].
Qed.

Lemma py_sum_nonneg (l : list Z) : Forall (fun z => 0 <= z) l -> 0 <= py_sum l.
Proof. intros H. unfold py_sum. apply fold_add_nonneg; [assumption | lia]. Qed.

(** The scan only issues header reads and leaves the contents alone. *)
Lemma index_loop_reads (fuel : nat) (size : Z) :
  forall s p fr hd s' fr' hd',
    TRR.index_loop fuel size s p fr hd = Some (Ok (s', fr', hd')) ->
    header_reads_only (reads s) ->
    header_reads_only (reads s') /\ data s' = data s.
Proof.
  induction fuel as [|fuel IH]; intros s p fr hd s' fr' hd' H Hl; simpl in H;
    [discriminate|].
  destruct (p <? size).
  - unfold seek in H. destruct (p <? 0) eqn:Ep; [discriminate|]. cbn [bind] in H.
    destruct (TRRHeader.__init__ _) as [[h s1]|e] eqn:Ei; [|discriminate].
    apply Z.ltb_ge in Ep.
    destruct (init_Ok_inv {| data := data s; pos := p; reads := reads s |} _ _ Ep Ei)
      as (_ & _ & _ & _ & _ & _ & _ & _ & _ & Hdata & _ & Hr & _).
    cbn [data pos reads] in Hdata, Hr.
    apply IH in H.
    + destruct H as [H1 H2]. split; [assumption | congruence].
    + rewrite Hr. apply Forall_app. split; [assumption|].
      constructor; [cbn [snd]; auto|].
      constructor; [cbn [snd]; destruct (TRRHeader.double h); auto|]. constructor.
  - injection H as <- <- <-. auto.
Qed.

Lemma single_advance (d : list byte) (p : Z) (l : list (Z * Z))
    (h : TRRHeader.t) (s' : stream) :
  0 <= p ->
  TRRHeader.__init__ {| data := d; pos := p; reads := l |} = Ok (h, s') ->
  TRRHeader.double h = false ->
  TRRHeader.fsize h + TRRHeader.hsize h - 36 = frame_length h.
Proof.
  intros Hp H Hd.
  destruct (init_Ok_inv {| data := d; pos := p; reads := l |} h s' Hp H) as (_ & _ & _ & _ & _ & _ & _ & _ & Hh & _).
  unfold frame_length. rewrite Hh, Hd. lia.
Qed.

Lemma wf_frame_positive (d : list byte) (p : Z) (l : list (Z * Z))
    (h : TRRHeader.t) (s' : stream) :
  0 <= p ->
  TRRHeader.__init__ {| data := d; pos := p; reads := l |} = Ok (h, s') ->
  Forall (fun z => 0 <= z) (firstn 10 (TRRHeader._rawheader h)) ->
  0 < frame_length h.
Proof.
  intros Hp H Hnn.
  destruct (init_Ok_inv {| data := d; pos := p; reads := l |} h s' Hp H) as (_ & Hraw & _ & _ & _ & _ & _ & Hf & _).
  rewrite <- Hraw in Hf. apply py_sum_nonneg in Hnn.
  unfold frame_length. rewrite Hf. destruct (TRRHeader.double h); lia.
Qed.

(** On single-precision frames laid end to end the scan visits exactly the
    frame starts. *)
Lemma index_loop_wf (contents : list byte) (p : Z) (hs : list TRRHeader.t) :
  well_formed contents p hs ->
  Forall (fun h => TRRHeader.double h = false) hs ->
  forall fuel s fr hd,
    data s = contents ->
    (length hs < fuel)%nat ->
    exists s',
      TRR.index_loop fuel (Z.of_nat (length contents)) s p fr hd
      = Some (Ok (s', fr ++ offsets_from p hs, hd ++ hs)).
Proof.
  induction 1 as [|p h s0 hs Hp Hi Hnn Hna Hfit Hwf IH];
    intros Hs fuel s fr hd Hd Hfuel.
  - destruct fuel as [|fuel]; [simpl in Hfuel; lia|]. simpl.
    rewrite Z.ltb_irrefl, !app_nil_r. eauto.
  - destruct fuel as [|fuel]; [simpl in Hfuel; lia|].
    inversion Hs as [|? ? Hsingle Hs']; subst.
    pose proof (wf_frame_positive _ _ _ _ _ Hp Hi Hnn) as Hlen.
    cbn [TRR.index_loop].
    replace (p <? Z.of_nat (length (data s))) with true
      by (symmetry; apply Z.ltb_lt; lia).
    unfold seek. replace (p <? 0) with false by (symmetry; apply Z.ltb_ge; lia).
    cbn [bind].
    destruct (init_same_bytes {| data := data s; pos := p; reads := [] |}
                {| data := data s; pos := p; reads := reads s |}
                h s0 eq_refl eq_refl Hi) as (t' & Ht).
    rewrite Ht.
    assert (Hdt : data t' = data s).
    { destruct (init_Ok_inv {| data := data s; pos := p; reads := reads s |} _ _ Hp Ht)
        as (_ & _ & _ & _ & _ & _ & _ & _ & _ & Hdata & _). exact Hdata. }
    rewrite (single_advance _ _ _ _ _ Hp Hi Hsingle).
    destruct (IH Hs' fuel t' (fr ++ [p]) (hd ++ [h]) Hdt ltac:(simpl in Hfuel; lia))
      as (s' & IH').
    exists s'. rewrite IH'. cbn [offsets_from].
    rewrite (single_advance _ _ _ _ _ Hp Hi Hsingle), <- !app_assoc. reflexivity.
Qed.

Lemma offsets_from_length (p : Z) (hs : list TRRHeader.t) :
  length (offsets_from p hs) = length hs.
Proof. revert p; induction hs as [|h hs IH]; intros p; simpl; [|rewrite IH]; reflexivity. Qed.

Lemma offsets_from_step (hs : list TRRHeader.t) :
  forall p i o o' h,
    nth_error (offsets_from p hs) i = Some o ->
    nth_error hs i = Some h ->
    nth_error (offsets_from p hs) (S i) = Some o' ->
    o' = o + (TRRHeader.fsize h + TRRHeader.hsize h - 36).
Proof.
  induction hs as [|h0 hs IH]; intros p i o o' h Ho Hh Ho'.
  - destruct i; discriminate.
  - destruct i as [|i].
    + simpl in Ho, Hh. injection Ho as <-. injection Hh as <-.
      destruct hs; simpl in Ho'; [discriminate|]. now injection Ho' as <-.
    + simpl in Ho, Hh. cbn [offsets_from nth_error] in Ho'.
      eapply IH; eassumption.
Qed.

(** On well-formed single-precision frames the visited offsets lie in the
    file, beyond [p], and increase strictly. *)
Lemma offsets_from_sorted (contents : list byte) (p : Z) (hs : list TRRHeader.t) :
  well_formed contents p hs ->
  Forall (fun h => TRRHeader.double h = false) hs ->
  Forall (fun o => p <= o < Z.of_nat (length contents)) (offsets_from p hs) /\
  StronglySorted Z.lt (offsets_from p hs).
Proof.
  induction 1 as [|p h s0 hs Hp Hi Hnn Hna Hfit Hwf IH]; intros Hs.
  - split; constructor.
  - inversion Hs as [|? ? Hsingle Hs']; subst.
    pose proof (wf_frame_positive _ _ _ _ _ Hp Hi Hnn) as Hlen.
    cbn [offsets_from]. rewrite (single_advance _ _ _ _ _ Hp Hi Hsingle).
    destruct (IH Hs') as [Hb Hsort]. split.
    + constructor; [lia|]. eapply Forall_impl; [|exact Hb]. cbv beta. intros; lia.
    + constructor; [assumption|]. eapply Forall_impl; [|exact Hb]. cbv beta. intros; lia.
Qed.

(** Whatever the file, a scan that returns has visited the offsets
    [offsets_from 0 hs] of the headers it decoded: all below the size, and
    the position after the last one is not. *)
Lemma index_loop_offsets (fuel : nat) (size : Z) :
  forall s p fr hd s' fr' hd',
    TRR.index_loop fuel size s p fr hd = Some (Ok (s', fr', hd')) ->
    exists hs,
      hd' = hd ++ hs /\
      fr' = fr ++ offsets_from p hs /\
      Forall (fun o => o < size) (offsets_from p hs) /\
      size <= end_from p hs.
Proof.
  induction fuel as [|fuel IH]; intros s p fr hd s' fr' hd' H; simpl in H;
    [discriminate|].
  destruct (p <? size) eqn:Ep.
  - destruct (bind (seek p s) _) as [[h s1]|e]; [|discriminate].
    apply IH in H. destruct H as (hs & -> & -> & Hlt & Hend).
    apply Z.ltb_lt in Ep.
    exists (h :: hs). rewrite <- !app_assoc. cbn [app offsets_from end_from fold_left].
    repeat apply conj; try reflexivity; [constructor; assumption | exact Hend].
  - injection H as <- <- <-. apply Z.ltb_ge in Ep.
    exists []. rewrite !app_nil_r. cbn. repeat apply conj; auto.
Qed.

Lemma end_from_last (hs : list TRRHeader.t) :
  forall p i o h,
    nth_error (offsets_from p hs) i = Some o ->
    nth_error hs i = Some h ->
    S i = length hs ->
    end_from p hs = o + (TRRHeader.fsize h + TRRHeader.hsize h - 36).
Proof.
  induction hs as [|h0 hs IH]; intros p i o h Ho Hh Hl.
  - destruct i; discriminate.
  - destruct i as [|i]; cbn [offsets_from nth_error length end_from fold_left] in *.
    + injection Ho as <-. injection Hh as <-.
      destruct hs; [reflexivity | discriminate].
    + eapply IH; eauto.
Qed.

(** On any file, a scan that returns has recorded offset 0 first and then,
    for each frame, the previous offset plus that frame's
    [fsize + hsize - 36]; every recorded offset lies below the file size and
    the position after the last frame does not. *)
Lemma index_scan_rule (contents : list byte) (fuel : nat) (s' : stream)
    (offs : list Z) (hs : list TRRHeader.t) :
  TRR.index_loop fuel (file_size (open contents)) (open contents) 0 [] []
  = Some (Ok (s', offs, hs)) ->
  length offs = length hs /\
  (hs <> [] -> nth_error offs 0 = Some 0) /\
  (forall i o o' h,
      nth_error offs i = Some o -> nth_error hs i = Some h ->
      nth_error offs (S i) = Some o' ->
      o' = o + TRRHeader.fsize h + TRRHeader.hsize h - 36) /\
  Forall (fun o => o < file_size (open contents)) offs /\
  (forall i o h,
      nth_error offs i = Some o -> nth_error hs i = Some h ->
      S i = length hs ->
      file_size (open contents)
      <= o + TRRHeader.fsize h + TRRHeader.hsize h - 36).
Proof.
  intros H.
  destruct (index_loop_offsets _ _ _ _ _ _ _ _ _ H) as (hs' & Hhs & Hoffs & Hlt & Hend).
  cbn [app] in Hhs, Hoffs. subst hs' offs.
  repeat apply conj.
  - apply offsets_from_length.
  - destruct hs; [congruence | reflexivity].
  - intros i o o' h Ho Hh Ho'.
    rewrite (offsets_from_step hs 0 i o o' h Ho Hh Ho'). lia.
  - exact Hlt.
  - intros i o h Ho Hh Hl.
    rewrite (end_from_last hs 0 i o h Ho Hh Hl) in Hend. lia.
Qed.

(** X20: the single-precision path of the index scan.  On a file of
    single-precision frames laid end to end the scan returns (given fuel
    for one iteration per frame and the final test) the headers of the
    frames present and one offset per frame: the first is 0, each next one
    is the previous plus that frame's [fsize + hsize - 36], every recorded
    offset lies below the file size and the position after the last frame
    does not, and the offsets increase strictly. *)
Theorem index_single_precision (contents : list byte) (hs : list TRRHeader.t) :
  well_formed contents 0 hs ->
  Forall (fun h => TRRHeader.double h = false) hs ->
  forall fuel, (length hs < fuel)%nat ->
  exists s' offs,
    TRR.index_loop fuel (file_size (open contents)) (open contents) 0 [] []
    = Some (Ok (s', offs, hs)) /\
    length offs = length hs /\
    (hs <> [] -> nth_error offs 0 = Some 0) /\
    (forall i o o' h,
        nth_error offs i = Some o -> nth_error hs i = Some h ->
        nth_error offs (S i) = Some o' ->
        o' = o + TRRHeader.fsize h + TRRHeader.hsize h - 36) /\
    Forall (fun o => o < file_size (open contents)) offs /\
    (forall i o h,
        nth_error offs i = Some o -> nth_error hs i = Some h ->
        S i = length hs ->
        file_size (open contents)
        <= o + TRRHeader.fsize h + TRRHeader.hsize h - 36) /\
    StronglySorted Z.lt offs.
Proof.
  intros Hwf Hs fuel Hfuel.
  destruct (index_loop_wf contents 0 hs Hwf Hs fuel (open contents) [] []
              eq_refl Hfuel) as (s' & H).
  exists s', (offsets_from 0 hs).
  destruct (index_scan_rule contents fuel s' _ hs H) as (H1 & H2 & H3 & H4 & H5).
  repeat apply conj; try assumption.
  apply (offsets_from_sorted contents 0 hs Hwf Hs).
Qed.

Lemma two_single_frames_wf :
  well_formed two_single_frames 0 [single_header; single_header].
Proof.
  apply (wf_frame two_single_frames 0 single_header
           {| data := two_single_frames; pos := 84; reads := [(0, 76); (76, 8)] |});
    [discriminate | vm_compute; reflexivity
    | vm_compute; repeat constructor; discriminate | reflexivity
    | vm_compute; discriminate | ].
  apply (wf_frame two_single_frames 144 single_header
           {| data := two_single_frames; pos := 228; reads := [(144, 76); (220, 8)] |});
    [discriminate | vm_compute; reflexivity
    | vm_compute; repeat constructor; discriminate | reflexivity
    | vm_compute; discriminate | ].
  apply wf_end.
Qed.

Lemma index_single_precision_witness :
  well_formed two_single_frames 0 [single_header; single_header] /\
  Forall (fun h => TRRHeader.double h = false) [single_header; single_header] /\
  exists s' offs,
    TRR.index_loop 3 (file_size (open two_single_frames)) (open two_single_frames)
                   0 [] []
    = Some (Ok (s', offs, [single_header; single_header])) /\
    length offs = 2%nat /\
    ([single_header; single_header] <> [] -> nth_error offs 0 = Some 0) /\
    (forall i o o' h,
        nth_error offs i = Some o ->
        nth_error [single_header; single_header] i = Some h ->
        nth_error offs (S i) = Some o' ->
        o' = o + TRRHeader.fsize h + TRRHeader.hsize h - 36) /\
    Forall (fun o => o < file_size (open two_single_frames)) offs /\
    (forall i o h,
        nth_error offs i = Some o ->
        nth_error [single_header; single_header] i = Some h ->
        S i = 2%nat ->
        file_size (open two_single_frames)
        <= o + TRRHeader.fsize h + TRRHeader.hsize h - 36) /\
    StronglySorted Z.lt offs.
Proof.
  assert (H2 : Forall (fun h => TRRHeader.double h = false)
                 [single_header; single_header])
    by (repeat constructor).
  exact (conj two_single_frames_wf
          (conj H2
            (index_single_precision two_single_frames
               [single_header; single_header] two_single_frames_wf H2 3%nat
               (le_n 3)))).
Defined.

Lemma two_double_frames_wf :
  well_formed two_double_frames 0 [double_header; double_header].
Proof.
  apply (wf_frame two_double_frames 0 double_header
           {| data := two_double_frames; pos := 92; reads := [(0, 76); (76, 16)] |});
    [discriminate | vm_compute; reflexivity
    | vm_compute; repeat constructor; discriminate | reflexivity
    | vm_compute; discriminate | ].
  apply (wf_frame two_double_frames 188 double_header
           {| data := two_double_frames; pos := 280; reads := [(188, 76); (264, 16)] |});
    [discriminate | vm_compute; reflexivity
    | vm_compute; repeat constructor; discriminate | reflexivity
    | vm_compute; discriminate | ].
  apply wf_end.
Qed.

(** C3, the code at the failing input: a well-formed file of two
    double-precision frames laid end to end is not indexed.  The advance
    subtracts 36, the size of a single-precision box, from a header size
    that counts the 72 bytes of the double-precision one: after the first
    frame the scan moves by [fsize + hsize - 36 = 224] bytes while the
    frame is 188 bytes long, reads an atom count of zero there and raises;
    with less fuel than that it is still running.  No amount of fuel yields
    an index. *)
Lemma index_double_precision_fails :
  well_formed two_double_frames 0 [double_header; double_header] /\
  (forall fuel, (2 <= fuel)%nat ->
     TRR.index_loop fuel (file_size (open two_double_frames))
                    (open two_double_frames) 0 [] []
     = Some (Raise ZeroDivisionError)) /\
  ~ (exists fuel r,
        TRR.index_loop fuel (file_size (open two_double_frames))
                       (open two_double_frames) 0 [] []
        = Some (Ok r)).
Proof.
  assert (H : forall fuel, (2 <= fuel)%nat ->
     TRR.index_loop fuel (file_size (open two_double_frames))
                    (open two_double_frames) 0 [] []
     = Some (Raise ZeroDivisionError)).
  { intros [|[|fuel]] Hf; [lia | lia |]. vm_compute. reflexivity. }
  split; [exact two_double_frames_wf|]. split; [exact H|].
  intros (fuel & r & Hr).
  destruct fuel as [|[|fuel]].
  - discriminate Hr.
  - vm_compute in Hr. discriminate Hr.
  - rewrite H in Hr by lia. discriminate Hr.
Qed.

(** C1, as the code has it: for a file without any frame the index scan
    records no offset and no header, and construction then fails with an
    IndexError when it looks up frame 0's header; there is no trajectory to
    read blocks from. *)
Theorem empty_file_not_constructed (fuel : nat) (sel : atom_selection) :
  TRR.index_loop (S fuel) (file_size (open [])) (open []) 0 [] []
  = Some (Ok (open [], [], [])) /\
  TRR.__init__ (S fuel) [] sel = Some (Raise IndexError).
Proof. split; reflexivity. Qed.

(** C1 as stated fails: no trajectory is ever constructed from the empty
    file. *)
Lemma empty_file_construction_fails :
  ~ (exists fuel t, TRR.__init__ fuel [] default_selection = Some (Ok t)).
Proof.
  intros (fuel & t & H). destruct fuel as [|fuel]; discriminate H.
Qed.

(** ** Construction *)

(** What a successful construction has computed. *)
Lemma init_Ok_inv_TRR (fuel : nat) (contents : list byte) (sel : atom_selection)
    (t : TRR.t) :
  TRR.__init__ fuel contents sel = Some (Ok t) ->
  exists h0,
    TRR.index_loop fuel (file_size (open contents)) (open contents) 0 [] []
    = Some (Ok (TRR.trr t, TRR.frames t, TRR.headers t)) /\
    TRR.geometry (TRR.frames t) (TRR.headers t)
    = Ok (TRR._sizes t, TRR._have t, TRR._starts t) /\
    getitem (TRR.headers t) 0 = Ok h0 /\
    TRR.natoms t = TRRHeader.natoms h0 /\
    TRR.resolve (TRR.natoms t) sel = Ok (TRR.selection t, TRR._maxidx t) /\
    TRR._positions t = None /\ TRR._velocities t = None /\ TRR._forces t = None.
Proof.
  unfold TRR.__init__.
  destruct (TRR.index_loop _ _ _ _ _ _) as [[[[s fr] hd]|e]|] eqn:El;
    try discriminate.
  intros H. injection H as H.
  destruct (TRR.geometry fr hd) as [[[sizes have] starts]|e] eqn:Eg; [|discriminate].
  cbn [bind] in H.
  destruct (getitem hd 0) as [h0|e] eqn:Eh; [|discriminate]. cbn [bind] in H.
  destruct (TRR.resolve _ sel) as [[sel' maxidx]|e] eqn:Er; [|discriminate].
  cbn [bind] in H. injection H as <-.
  cbn [TRR.trr TRR.frames TRR.headers TRR._sizes TRR._have TRR._starts TRR.natoms
       TRR.selection TRR._maxidx TRR._positions TRR._velocities TRR._forces].
  exists h0. repeat apply conj; reflexivity || assumption.
Qed.

(** Construction with any selection is construction with the default one
    followed by the resolution of the selection. *)
Lemma init_resolve (fuel : nat) (contents : list byte) (sel : atom_selection)
    (t0 : TRR.t) :
  TRR.__init__ fuel contents default_selection = Some (Ok t0) ->
  TRR.__init__ fuel contents sel =
  Some ('(sel', maxidx) <- TRR.resolve (TRR.natoms t0) sel ;;
        Ok (TRR.mk (TRR.trr t0) (TRR.frames t0) (TRR.headers t0) (TRR.times t0)
              (TRR._sizes t0) (TRR._have t0) (TRR._starts t0) (TRR.natoms t0)
              sel' maxidx None None None)).
Proof.
  unfold TRR.__init__.
  destruct (TRR.index_loop _ _ _ _ _ _) as [[[[s fr] hd]|e]|]; try discriminate.
  intros H. injection H as H. f_equal.
  destruct (TRR.geometry fr hd) as [[[sizes have] starts]|e]; [|discriminate].
  cbn [bind] in *.
  destruct (getitem hd 0) as [h0|e]; [|discriminate]. cbn [bind] in *.
  cbn in H. injection H as <-. cbn. reflexivity.
Qed.

(** After construction the stored selection is never an int. *)
Lemma init_selection_not_int (fuel : nat) (contents : list byte)
    (sel : atom_selection) (t : TRR.t) (k : Z) :
  TRR.__init__ fuel contents sel = Some (Ok t) -> TRR.selection t <> SelInt k.
Proof.
  intros H. destruct (init_Ok_inv_TRR _ _ _ _ H) as (h0 & _ & _ & _ & _ & Hr & _).
  destruct sel as [k'|a b c|m|a|l]; cbn [TRR.resolve] in Hr.
  - injection Hr as <- _. discriminate.
  - destruct b; injection Hr as <- _; discriminate.
  - destruct (where_last _); [|discriminate]. injection Hr as <- _. discriminate.
  - destruct (py_max a); [|discriminate]. injection Hr as <- _. discriminate.
  - destruct (py_max _) as [mx|]; [|discriminate]. cbn [bind] in Hr.
    destruct (2 <? mx + 1); [injection Hr as <- _; discriminate|].
    destruct (where_last _); [|discriminate]. injection Hr as <- _. discriminate.
Qed.

Lemma nth_error_map2 {A B C : Type} (f : A -> B -> C) (l : list A) (l' : list B) :
  forall i a b,
    nth_error l i = Some a -> nth_error l' i = Some b ->
    nth_error (map2 f l l') i = Some (f a b).
Proof.
  revert l'; induction l as [|x l IH]; intros l' i a b Ha Hb.
  - destruct i; discriminate.
  - destruct l' as [|y l']; [destruct i; discriminate|].
    destruct i as [|i]; simpl in *.
    + congruence.
    + eauto.
Qed.

Lemma transpose3_headers (h0 : TRRHeader.t) (hs : list TRRHeader.t) :
  transpose3
    (map (fun h => (TRRHeader.positions h, TRRHeader.velocities h, TRRHeader.forces h))
         (h0 :: hs))
  = [ map TRRHeader.positions (h0 :: hs);
      map TRRHeader.velocities (h0 :: hs);
      map TRRHeader.forces (h0 :: hs) ].
Proof. cbn [map transpose3 fst snd]. rewrite !map_map. reflexivity. Qed.

(** The block starts, row by row. *)
Lemma geometry_starts (frames : list Z) (headers : list TRRHeader.t)
    (sizes : list (list Z)) (have : list (list bool)) (starts : list (list Z)) :
  TRR.geometry frames headers = Ok (sizes, have, starts) ->
  exists h0,
    nth_error headers 0 = Some h0 /\
    sizes = [ map TRRHeader.positions headers;
              map TRRHeader.velocities headers;
              map TRRHeader.forces headers ] /\
    have = map (map (fun z => negb (z =? 0))) sizes /\
    starts =
      [ map (fun f => f + TRRHeader.hsize h0) frames;
        map2 Z.add (map (fun f => f + TRRHeader.hsize h0) frames)
             (map TRRHeader.positions headers);
        map2 Z.add
             (map2 Z.add (map (fun f => f + TRRHeader.hsize h0) frames)
                   (map TRRHeader.positions headers))
             (map TRRHeader.velocities headers) ].
Proof.
  unfold TRR.geometry. destruct headers as [|h0 hs]; [discriminate|].
  rewrite transpose3_headers.
  set (hd := h0 :: hs).
  change (getitem hd 0) with (Ok h0).
  change (getitem [map TRRHeader.positions hd; map TRRHeader.velocities hd;
                   map TRRHeader.forces hd] 0)
    with (Ok (map TRRHeader.positions hd)).
  change (getitem [map TRRHeader.positions hd; map TRRHeader.velocities hd;
                   map TRRHeader.forces hd] 1)
    with (Ok (map TRRHeader.velocities hd)).
  cbn [bind map iadd_from iadd_at].
  intros H. injection H as <- <- <-.
  exists h0. repeat apply conj; reflexivity.
Qed.

(** C4, as the code has it: for every frame the start of block type 0 is
    the frame offset plus frame 0's [hsize]; the start of type 1 adds the
    size of block type 0 of that same frame; the start of type 2 adds the
    size of block type 1 of that same frame.  Only the header size is taken
    from frame 0. *)
Theorem block_starts (fuel : nat) (contents : list byte) (sel : atom_selection)
    (t : TRR.t) :
  TRR.__init__ fuel contents sel = Some (Ok t) ->
  exists h0 r0 r1 r2,
    nth_error (TRR.headers t) 0 = Some h0 /\
    TRR._starts t = [r0; r1; r2] /\
    forall i o h,
      nth_error (TRR.frames t) i = Some o ->
      nth_error (TRR.headers t) i = Some h ->
      nth_error r0 i = Some (o + TRRHeader.hsize h0) /\
      nth_error r1 i = Some (o + TRRHeader.hsize h0 + TRRHeader.positions h) /\
      nth_error r2 i = Some (o + TRRHeader.hsize h0 + TRRHeader.positions h
                             + TRRHeader.velocities h).
Proof.
  intros H.
  destruct (init_Ok_inv_TRR _ _ _ _ H) as (h0' & _ & Hg & _).
  destruct (geometry_starts _ _ _ _ _ Hg) as (h0 & Hh0 & _ & _ & Hst).
  exists h0. do 3 eexists. split; [exact Hh0|]. split; [exact Hst|].
  intros i o h Ho Hh.
  pose proof (map_nth_error (fun f => f + TRRHeader.hsize h0) _ _ Ho) as H0.
  pose proof (map_nth_error TRRHeader.positions _ _ Hh) as Hx.
  pose proof (map_nth_error TRRHeader.velocities _ _ Hh) as Hv.
  pose proof (nth_error_map2 Z.add _ _ _ _ _ H0 Hx) as H1.
  pose proof (nth_error_map2 Z.add _ _ _ _ _ H1 Hv) as H2.
  cbv beta in *. auto.
Qed.

Lemma block_starts_witness :
  exists t,
    TRR.__init__ 3 mixed_frames default_selection = Some (Ok t) /\
    exists h0 r0 r1 r2,
      nth_error (TRR.headers t) 0 = Some h0 /\
      TRR._starts t = [r0; r1; r2] /\
      forall i o h,
        nth_error (TRR.frames t) i = Some o ->
        nth_error (TRR.headers t) i = Some h ->
        nth_error r0 i = Some (o + TRRHeader.hsize h0) /\
        nth_error r1 i = Some (o + TRRHeader.hsize h0 + TRRHeader.positions h) /\
        nth_error r2 i = Some (o + TRRHeader.hsize h0 + TRRHeader.positions h
                               + TRRHeader.velocities h).
Proof.
  assert (E : exists t,
             TRR.__init__ 3 mixed_frames default_selection = Some (Ok t))
    by (vm_compute; eexists; reflexivity).
  destruct E as [t E]. exists t.
  exact (conj E (block_starts 3 mixed_frames default_selection t E)).
Defined.

(** C4 as stated fails: in a file whose frames declare 12 and then 24
    bytes of positions, the velocities of frame 1 (offset 144) are located
    at 144 + 120 + 24 = 288, with frame 1's own positions size, not at
    144 + 120 + 12 = 276 as frame 0's size would give. *)
Lemma block_starts_not_from_frame0 :
  exists t h0 h1,
    TRR.__init__ 3 mixed_frames default_selection = Some (Ok t) /\
    nth_error (TRR.headers t) 0 = Some h0 /\
    nth_error (TRR.headers t) 1 = Some h1 /\
    nth_error (TRR.frames t) 1 = Some 144 /\
    nth_error (nth 1 (TRR._have t) []) 1 = Some true /\
    TRRHeader.hsize h0 = 120 /\
    TRRHeader.positions h0 = 12 /\
    TRRHeader.positions h1 = 24 /\
    nth_error (nth 1 (TRR._starts t) []) 1 = Some 288 /\
    288 <> 144 + TRRHeader.hsize h0 + TRRHeader.positions h0.
Proof.
  vm_compute. do 3 eexists.
  split; [reflexivity|]. cbn.
  repeat apply conj; try reflexivity. discriminate.
Qed.

(** ** Selection resolution *)


Lemma nonzero_from_zeros (l : list Z) :
  Forall (fun z => z = 0) l -> forall k, nonzero_from k l = [].
Proof.
  induction 1 as [|x l Hx Hl IH]; intros k; simpl; [reflexivity|].
  subst x. simpl. apply IH.
Qed.

(** Every position [np.where] reports is a position of the list. *)
Lemma nonzero_from_bound (l : list Z) :
  forall k, Forall (fun i => k <= i < k + Z.of_nat (length l)) (nonzero_from k l).
Proof.
  induction l as [|x l IH]; intros k; simpl nonzero_from; [constructor|].
  assert (H : Forall (fun i => k <= i < k + Z.of_nat (length (x :: l)))
                (nonzero_from (k + 1) l)).
  { eapply Forall_impl; [|apply IH]. cbv beta. simpl length. intros; lia. }
  destruct (x =? 0); [assumption|]. constructor; [simpl length; lia | assumption].
Qed.


Lemma getitem_In {A : Type} (l : list A) (i : Z) (x : A) :
  getitem l i = Ok x -> In x l.
Proof.
  unfold getitem. destruct (_ || _); [discriminate|].
  destruct (nth_error l _) eqn:E; [|discriminate].
  intros H; injection H as <-. eapply nth_error_In; eassumption.
Qed.


Lemma where_last_bound (l : list Z) (i : Z) :
  where_last l = Ok i -> 0 <= i < Z.of_nat (length l).
Proof.
  unfold where_last. intros H. apply getitem_In in H.
  pose proof (nonzero_from_bound l 0) as Hb.
  rewrite Forall_forall in Hb. specialize (Hb i H). lia.
Qed.



Lemma wrap_int64_small (z : Z) :
  -9223372036854775808 <= z < 9223372036854775808 -> wrap_int64 z = z.
Proof.
  intros H. unfold wrap_int64. rewrite Z.mod_small by lia. lia.
Qed.

(** C7, as the code has it: construction never compares a selection with
    the atom count.  On a file that indexes, an index list whose maximum is
    at least 2 is accepted whatever the atom count is, with [_maxidx] one
    more than its maximum; an index array (of 64-bit integers) is accepted
    as well, with [_maxidx] one more than its maximum in 64-bit arithmetic:
    the maximum plus 1, except that the largest 64-bit integer wraps to the
    smallest; an integer count is clipped to the atom count.  Construction
    reads header pieces only. *)
Theorem selection_bounds_unchecked (fuel : nat) (contents : list byte) (t0 : TRR.t) :
  TRR.__init__ fuel contents default_selection = Some (Ok t0) ->
  (forall l mx, py_max (map int_of l) = Ok mx -> 2 <= mx ->
     exists t, TRR.__init__ fuel contents (SelList l) = Some (Ok t) /\
               TRR._maxidx t = mx + 1 /\ TRR.natoms t = TRR.natoms t0) /\
  (forall a mx, py_max a = Ok mx ->
     exists t, TRR.__init__ fuel contents (SelArray a) = Some (Ok t) /\
               TRR._maxidx t = wrap_int64 (mx + 1) /\
               (-9223372036854775808 <= mx < 9223372036854775807 ->
                TRR._maxidx t = mx + 1) /\
               (mx = 9223372036854775807 ->
                TRR._maxidx t = -9223372036854775808) /\
               TRR.natoms t = TRR.natoms t0) /\
  (forall k,
     exists t, TRR.__init__ fuel contents (SelInt k) = Some (Ok t) /\
               TRR._maxidx t = Z.min k (TRR.natoms t0) /\
               TRR.natoms t = TRR.natoms t0) /\
  (forall sel t, TRR.__init__ fuel contents sel = Some (Ok t) ->
     header_reads_only (reads (TRR.trr t))).
Proof.
  intros H0. repeat apply conj.
  - intros l mx Hmx Hge. rewrite (init_resolve fuel contents (SelList l) t0 H0).
    unfold TRR.resolve. rewrite Hmx. cbn [bind].
    replace (2 <? mx + 1) with true by (symmetry; apply Z.ltb_lt; lia).
    cbn [bind]. eexists. repeat apply conj; reflexivity.
  - intros a mx Hmx. rewrite (init_resolve fuel contents (SelArray a) t0 H0).
    unfold TRR.resolve. rewrite Hmx. cbn [bind].
    eexists. split; [reflexivity|]. cbn [TRR._maxidx TRR.natoms].
    split; [reflexivity|]. split; [|split; [|reflexivity]].
    + intros Hr. apply wrap_int64_small. lia.
    + intros ->. reflexivity.
  - intros k. rewrite (init_resolve fuel contents (SelInt k) t0 H0).
    cbn [TRR.resolve bind]. eexists. repeat apply conj; reflexivity.
  - intros sel t H.
    destruct (init_Ok_inv_TRR _ _ _ _ H) as (h0 & Hl & _).
    apply index_loop_reads in Hl; [tauto | constructor].
Qed.

Lemma selection_bounds_unchecked_witness :
  exists t0,
    TRR.__init__ 3 two_single_frames default_selection = Some (Ok t0) /\
    TRR.natoms t0 = 2 /\
    (exists t, TRR.__init__ 3 two_single_frames (SelList [PyInt 0; PyInt 9])
               = Some (Ok t) /\
               TRR._maxidx t = 9 + 1 /\ TRR.natoms t = TRR.natoms t0).
Proof.
  assert (E : exists t0,
             TRR.__init__ 3 two_single_frames default_selection = Some (Ok t0) /\
             TRR.natoms t0 = 2)
    by (vm_compute; eexists; split; reflexivity).
  destruct E as (t0 & E & En). exists t0.
  refine (conj E (conj En _)).
  apply (proj1 (selection_bounds_unchecked 3 two_single_frames t0 E)
           [PyInt 0; PyInt 9] 9).
  - reflexivity.
  - discriminate.
Defined.

(** C7 as stated fails: on a file of 2 atoms the index list [[5]] is
    accepted; construction succeeds with [_maxidx = 6]. *)
Lemma out_of_bounds_selection_constructed :
  exists t,
    TRR.__init__ 3 two_single_frames (SelList [PyInt 5]) = Some (Ok t) /\
    TRR.natoms t = 2 /\
    TRR.selection t = SelList [PyInt 5] /\
    TRR._maxidx t = 6.
Proof.
  vm_compute. eexists. split; [reflexivity|]. cbn. repeat apply conj; reflexivity.
Qed.

(** ** Reading blocks *)





(** The atom axis of what [_read] returns. *)
Lemma read_axis1 (k : Z) (t : TRR.t) (X : ndarray) (t' : TRR.t) :
  TRR._read k t = Ok (X, t') ->
  0 <= TRR._maxidx t /\
  exists picked,
    index_row (TRR.selection t)
              (map Z.of_nat (seq 0 (Z.to_nat (TRR._maxidx t)))) = Ok picked /\
    axis1 X = Z.of_nat (length picked).
Proof.
  unfold TRR._read.
  destruct (getitem (TRR._have t) k) as [have_k|]; [|discriminate]. cbn [bind].
  destruct (TRR._maxidx t <? 0) eqn:Em; [discriminate|]. apply Z.ltb_ge in Em.
  destruct (getitem (TRR._starts t) k) as [starts_k|]; [|discriminate]. cbn [bind].
  destruct (TRR.read_frames _ _ _) as [[frs s]|]; [|discriminate]. cbn [bind].
  unfold TRR.index_axis1. cbn [axis1 frames_data].
  destruct (index_row _ _) as [picked|]; [|discriminate]. cbn [bind].
  intros H; injection H as <- _. cbn [axis1]. eauto.
Qed.


(** A boolean mask is never applied successfully: [_maxidx] is the
    position of its last true entry, so the axis read is shorter than the
    mask and numpy refuses the index. *)
Lemma mask_never_read (fuel : nat) (contents : list byte) (m : list bool)
    (t : TRR.t) (k : Z) (X : ndarray) (t' : TRR.t) :
  TRR.__init__ fuel contents (SelMask m) = Some (Ok t) ->
  TRR._read k t <> Ok (X, t').
Proof.
  intros H Hk.
  destruct (init_Ok_inv_TRR _ _ _ _ H) as (h0 & _ & _ & _ & _ & Hr & _).
  cbn [TRR.resolve] in Hr.
  destruct (where_last _) as [i|] eqn:Ew; [|discriminate]. cbn [bind] in Hr.
  apply where_last_bound in Ew. rewrite length_map in Ew.
  destruct (read_axis1 _ _ _ _ Hk) as (_ & picked & Hp & _).
  injection Hr as Hs Hm. rewrite <- Hs, <- Hm in Hp.
  cbn [index_row] in Hp. unfold take_mask in Hp.
  destruct (Nat.eqb _ _) eqn:E; [|discriminate].
  apply Nat.eqb_eq in E. rewrite length_map, length_seq in E. lia.
Qed.

Lemma rows3_length (n : nat) : forall l, length (rows3 n l) = n.
Proof. induction n as [|n IH]; intros l; simpl; [|rewrite IH]; reflexivity. Qed.

Lemma rows3_shape (n : nat) :
  forall l, (3 * n <= length l)%nat ->
            Forall (fun r => length r = 3%nat) (rows3 n l).
Proof.
  induction n as [|n IH]; intros l H; cbn [rows3]; constructor.
  - rewrite length_firstn. lia.
  - apply IH. rewrite length_skipn. lia.
Qed.

Lemma rows3_concat (n : nat) :
  forall l, length l = (3 * n)%nat -> concat (rows3 n l) = l.
Proof.
  induction n as [|n IH]; intros l H; cbn [rows3 concat].
  - destruct l; [reflexivity | discriminate].
  - rewrite IH by (rewrite length_skipn; lia). apply firstn_skipn.
Qed.

(** A decoded block is [maxidx] rows of three items, which are the first
    [3 * maxidx] 4-byte fields found at the block start. *)
Lemma decode_block_shape (contents : list byte) (m p : Z) :
  0 <= m ->
  length (decode_block contents m p) = Z.to_nat m /\
  Forall (fun r => length r = 3%nat) (decode_block contents m p) /\
  concat (decode_block contents m p)
  = map be_f4 (fields 4 (Z.to_nat (3 * m)) (skipn (Z.to_nat p) contents)).
Proof.
  intros Hm. unfold decode_block.
  assert (Hl : length (map be_f4 (fields 4 (Z.to_nat (3 * m))
                                    (skipn (Z.to_nat p) contents)))
               = (3 * Z.to_nat m)%nat)
    by (rewrite length_map, fields_length; lia).
  repeat apply conj.
  - apply rows3_length.
  - apply rows3_shape. lia.
  - apply rows3_concat. exact Hl.
Qed.

(** The read loop on blocks that lie within the file. *)
Lemma read_frames_full (d : list byte) (m : Z) :
  0 <= m ->
  forall ps s,
    data s = d ->
    Forall (fun p => 0 <= p /\ p + 4 * (3 * m) <= Z.of_nat (length d)) ps ->
    exists s',
      TRR.read_frames m ps s = Ok (map (decode_block d m) ps, s') /\
      reads s' = reads s ++ map (fun p => (p, 4 * (3 * m))) ps /\
      data s' = d.
Proof.
  intros Hm. induction ps as [|p ps IH]; intros s Hd Hps.
  - exists s. cbn [TRR.read_frames map]. rewrite app_nil_r. auto.
  - inversion Hps as [|? ? [Hp0 Hp1] Hps']; subst.
    cbn [TRR.read_frames]. unfold seek.
    replace (p <? 0) with false by (symmetry; apply Z.ltb_ge; lia).
    cbn [bind]. unfold fromfile_f4. cbn [data pos reads].
    set (avail := skipn (Z.to_nat p) (data s)).
    assert (Hav : Z.of_nat (length avail) = Z.of_nat (length (data s)) - p)
      by (subst avail; rewrite length_skipn; lia).
    assert (Hwhole : 3 * m <= Z.of_nat (length avail) / 4)
      by (apply Z.div_le_lower_bound; lia).
    replace (3 * m <? 0) with false by (symmetry; apply Z.ltb_ge; lia).
    replace (Z.min (3 * m) (Z.of_nat (length avail) / 4)) with (3 * m) by lia.
    set (items := map be_f4 (fields 4 (Z.to_nat (3 * m)) avail)).
    assert (Hitems : length items = (3 * Z.to_nat m)%nat)
      by (subst items; rewrite length_map, fields_length; lia).
    unfold reshape3. rewrite Hitems.
    replace (Z.of_nat (3 * Z.to_nat m) mod 3 =? 0) with true.
    2:{ symmetry. apply Z.eqb_eq. rewrite Nat2Z.inj_mul, Z.mul_comm.
        change (Z.of_nat 3) with 3. apply Z.mod_mul. lia. }
    cbn [bind].
    replace (Nat.div (3 * Z.to_nat m) 3) with (Z.to_nat m)
      by (rewrite Nat.mul_comm, Nat.div_mul; lia).
    unfold assign_frame. rewrite rows3_length.
    replace (Z.of_nat (Z.to_nat m) =? m) with true
      by (symmetry; apply Z.eqb_eq; lia).
    cbn [bind].
    match goal with
    | |- context [TRR.read_frames m ps ?s1] =>
        destruct (IH s1 eq_refl Hps') as (s' & Hrf & Hreads & Hdata)
    end.
    rewrite Hrf. cbn [bind]. exists s'. repeat apply conj.
    + reflexivity.
    + rewrite Hreads. cbn [reads map]. rewrite <- app_assoc. reflexivity.
    + exact Hdata.
Qed.






(** ** Accessor calls in sequence *)

(** [_read] changes nothing but the file handle. *)
Lemma read_keeps (k : Z) (t : TRR.t) (X : ndarray) (t1 : TRR.t) :
  TRR._read k t = Ok (X, t1) ->
  TRR.natoms t1 = TRR.natoms t /\ TRR.selection t1 = TRR.selection t /\
  TRR._maxidx t1 = TRR._maxidx t /\
  forall b, slot b t1 = slot b t.
Proof.
  unfold TRR._read.
  destruct (getitem (TRR._have t) k); [|discriminate]. cbn [bind].
  destruct (TRR._maxidx t <? 0); [discriminate|].
  destruct (getitem (TRR._starts t) k); [|discriminate]. cbn [bind].
  destruct (TRR.read_frames _ _ _) as [[frs s]|]; [|discriminate]. cbn [bind].
  destruct (TRR.index_axis1 _ _); [|discriminate]. cbn [bind].
  intros H; injection H as _ <-. cbn. repeat apply conj; try reflexivity.
  intros []; reflexivity.
Qed.

(** One successful accessor call: either the array was cached and nothing
    changes, or it comes from [_read] and is stored in the accessor's own
    slot, the other slots being left alone. *)
Lemma accessor_step (b : block) (t : TRR.t) (X : ndarray) (t' : TRR.t) :
  accessor b t = Ok (X, t') ->
  slot b t' = Some X /\
  ((t' = t /\ slot b t = Some X)
   \/
   (slot b t = None /\
    exists k t1,
      TRR._read k t = Ok (X, t1) /\
      TRR.natoms t' = TRR.natoms t /\
      TRR.selection t' = TRR.selection t /\
      TRR._maxidx t' = TRR._maxidx t /\
      forall b', b' <> b -> slot b' t' = slot b' t)).
Proof.
  destruct b; cbn [accessor slot];
    [unfold TRR.positions; destruct (TRR._positions t) as [c|] eqn:Ec
    |unfold TRR.velocities; destruct (TRR._velocities t) as [c|] eqn:Ec
    |unfold TRR.forces; destruct (TRR._forces t) as [c|] eqn:Ec];
    intros H;
    try (injection H as <- <-; split; [exact Ec | left; split; reflexivity]);
    match type of H with
    | bind (TRR._read ?k t) _ = _ =>
        destruct (TRR._read k t) as [[a' t1]|e] eqn:Er; [|discriminate H];
        cbn [bind] in H; injection H as <- <-;
        destruct (read_keeps k t _ t1 Er) as (Hn & Hs & Hm & Hsl);
        split; [reflexivity|]; right; split; [reflexivity|];
        exists k, t1;
        cbn [TRR.natoms TRR.selection TRR._maxidx];
        repeat apply conj; try assumption;
        intros [] Hne; try congruence; cbn [slot TRR._positions TRR._velocities TRR._forces];
        first [exact (Hsl Positions) | exact (Hsl Velocities) | exact (Hsl Forces)]
    end.
Qed.

(** A filled slot stays as it is. *)
Lemma slot_persists (t1 t2 : TRR.t) :
  reachable t1 t2 ->
  forall b a, slot b t1 = Some a -> slot b t2 = Some a.
Proof.
  induction 1 as [|t b0 X t' Hreach IH Ha]; intros b a Hs; [assumption|].
  specialize (IH b a Hs).
  destruct (accessor_step b0 t X t' Ha)
    as (Hnew & [[-> _]|(Hnone & k & t1' & _ & _ & _ & _ & Hother)]).
  - assumption.
  - destruct b, b0; try congruence; rewrite Hother; congruence.
Qed.


(** C8: once an accessor has returned an array, every later call of the
    same accessor, whatever accessor calls came in between, returns that
    same array and leaves the whole object, the file handle and its read
    log included, as it was: the block is computed at most once and never
    read again. *)
Theorem accessor_memoized (b : block) (t : TRR.t) (a : ndarray) (t1 t2 : TRR.t) :
  accessor b t = Ok (a, t1) ->
  reachable t1 t2 ->
  accessor b t2 = Ok (a, t2).
Proof.
  intros Ha Hreach.
  destruct (accessor_step b t a t1 Ha) as [Hnew _].
  pose proof (slot_persists t1 t2 Hreach b a Hnew) as Hs.
  destruct b; cbn [accessor slot] in *;
    [unfold TRR.positions | unfold TRR.velocities | unfold TRR.forces];
    rewrite Hs; reflexivity.
Qed.

Lemma accessor_memoized_witness :
  exists t a t1 v t2,
    TRR.__init__ 2 single_frame default_selection = Some (Ok t) /\
    reads (TRR.trr t) = [(0, 76); (76, 8)] /\
    accessor Positions t = Ok (a, t1) /\
    reads (TRR.trr t1) = [(0, 76); (76, 8); (120, 24)] /\
    accessor Velocities t1 = Ok (v, t2) /\
    reachable t1 t2 /\
    accessor Positions t2 = Ok (a, t2).
Proof.
  assert (E : exists t a t1 v t2,
             TRR.__init__ 2 single_frame default_selection = Some (Ok t) /\
             reads (TRR.trr t) = [(0, 76); (76, 8)] /\
             accessor Positions t = Ok (a, t1) /\
             reads (TRR.trr t1) = [(0, 76); (76, 8); (120, 24)] /\
             accessor Velocities t1 = Ok (v, t2))
    by (vm_compute; do 5 eexists; repeat apply conj; reflexivity).
  destruct E as (t & a & t1 & v & t2 & E & Hr & Ea & Hr1 & Ev).
  exists t, a, t1, v, t2.
  assert (Hreach : reachable t1 t2)
    by exact (reach_call t1 t1 Velocities v t2 (reach_here t1) Ev).
  exact (conj E (conj Hr (conj Ea (conj Hr1 (conj Ev (conj Hreach
          (accessor_memoized Positions t a t1 t2 Ea Hreach))))))).
Defined.




(** * Further properties of the reader *)

(** * Further properties of the header decoder *)

Lemma init_short_prefix (s : stream) :
  (remaining s < 76)%nat ->
  TRRHeader.__init__ s = Raise StructError.
Proof.
  intros H. unfold TRRHeader.__init__, read, unpack_l, remaining in *.
  cbn [bind].
  replace (Nat.eqb _ _) with false; [reflexivity|].
  symmetry. apply Nat.eqb_neq.
  rewrite length_skipn, length_firstn. change (Z.to_nat 76) with 76%nat. lia.
Qed.

(** X1: a stream that ends inside the 76-byte prefix makes the decoder
    raise struct.error: no header is returned from a short prefix
    (the empty stream included). *)
Theorem truncated_prefix_raises (s : stream) :
  (remaining s < 76)%nat ->
  TRRHeader.__init__ s = Raise StructError.
Proof. exact (init_short_prefix s). Qed.

Lemma truncated_prefix_raises_witness :
  (remaining (open (firstn 75 single_frame)) < 76)%nat /\
  TRRHeader.__init__ (open (firstn 75 single_frame)) = Raise StructError.
Proof.
  assert (H : (remaining (open (firstn 75 single_frame)) < 76)%nat)
    by (apply Nat.ltb_lt; vm_compute; reflexivity).
  exact (conj H (truncated_prefix_raises (open (firstn 75 single_frame)) H)).
Defined.

(** X2: a stream that holds the prefix (with a non-zero atom count) but
    ends inside time and lambda makes the decoder raise struct.error as
    well. *)
Theorem truncated_time_raises (s : stream) :
  0 <= pos s ->
  (76 <= remaining s)%nat ->
  declared_natoms s <> 0 ->
  (remaining s < Z.to_nat (if declared_double s then 92 else 84))%nat ->
  TRRHeader.__init__ s = Raise StructError.
Proof.
  intros Hpos Hp Hn Hshort.
  rewrite (init_after_prefix s Hp).
  apply Z.eqb_neq in Hn. rewrite Hn. cbv zeta.
  pose proof (s1_pos s Hp) as Hp1.
  assert (Hlen : forall n, 0 <= n -> (remaining s < Z.to_nat (76 + n))%nat ->
            Nat.eqb (length (fst (read n (snd (read 76 s))))) (Z.to_nat n) = false).
  { intros n Hn0 Hr. apply Nat.eqb_neq. unfold read at 1. cbn [fst]. rewrite Hp1.
    unfold read; cbn [snd data]. rewrite length_firstn, length_skipn.
    unfold remaining in Hr, Hp. rewrite length_skipn in Hr, Hp. lia. }
  destruct (declared_double s).
  - specialize (Hlen 16 ltac:(lia) Hshort).
    destruct (read 16 _) as [fl s2]. cbn [fst] in Hlen.
    unfold unpack_2f. change (2 * 8)%nat with (Z.to_nat 16). rewrite Hlen. reflexivity.
  - specialize (Hlen 8 ltac:(lia) Hshort).
    destruct (read 8 _) as [fl s2]. cbn [fst] in Hlen.
    unfold unpack_2f. change (2 * 4)%nat with (Z.to_nat 8). rewrite Hlen. reflexivity.
Qed.

Lemma truncated_time_raises_witness :
  0 <= pos (open (firstn 80 single_frame)) /\
  (76 <= remaining (open (firstn 80 single_frame)))%nat /\
  declared_natoms (open (firstn 80 single_frame)) <> 0 /\
  (remaining (open (firstn 80 single_frame))
   < Z.to_nat (if declared_double (open (firstn 80 single_frame)) then 92 else 84))%nat /\
  TRRHeader.__init__ (open (firstn 80 single_frame)) = Raise StructError.
Proof.
  assert (H1 : 0 <= pos (open (firstn 80 single_frame))) by (vm_compute; discriminate).
  assert (H2 : (76 <= remaining (open (firstn 80 single_frame)))%nat)
    by (apply Nat.leb_le; vm_compute; reflexivity).
  assert (H3 : declared_natoms (open (firstn 80 single_frame)) <> 0)
    by (vm_compute; discriminate).
  assert (H4 : (remaining (open (firstn 80 single_frame))
                < Z.to_nat (if declared_double (open (firstn 80 single_frame))
                            then 92 else 84))%nat)
    by (apply Nat.ltb_lt; vm_compute; reflexivity).
  exact (conj H1 (conj H2 (conj H3 (conj H4
          (truncated_time_raises (open (firstn 80 single_frame)) H1 H2 H3 H4))))).
Defined.

Lemma getslice_head8 {A : Type} (l : list A) :
  (8 <= length l)%nat -> getslice l 0 8 = firstn 8 l.
Proof.
  intros H. unfold getslice, clamp.
  change (0 <? 0) with false. change (8 <? 0) with false. cbv iota.
  replace (Z.to_nat (Z.max 0 (Z.min (Z.of_nat (length l)) 8)
                     - Z.max 0 (Z.min (Z.of_nat (length l)) 0))) with 8%nat by lia.
  replace (Z.to_nat (Z.max 0 (Z.min (Z.of_nat (length l)) 0))) with 0%nat by lia.
  reflexivity.
Qed.

(** The remaining fields of a decoded header. *)
Lemma init_Ok_fields (s : stream) (h : TRRHeader.t) (s' : stream) :
  TRRHeader.__init__ s = Ok (h, s') ->
  TRRHeader._rawheader h = header_ints s /\
  TRRHeader.step h = nth 11 (header_ints s) 0 /\
  TRRHeader.double h = declared_double s /\
  TRRHeader.positions h = nth 7 (header_ints s) 0 /\
  TRRHeader.velocities h = nth 8 (header_ints s) 0 /\
  TRRHeader.forces h = nth 9 (header_ints s) 0 /\
  TRRHeader.natoms h = nth 10 (header_ints s) 0 /\
  TRRHeader.fsize h = py_sum (firstn 10 (header_ints s)) /\
  TRRHeader.bsize h
  = Z.max (Z.max (TRRHeader.positions h) (TRRHeader.velocities h)) (TRRHeader.forces h) /\
  TRRHeader.hsize h = (if TRRHeader.double h then 164 else 120) /\
  TRRHeader.tag h = firstn 8 (skipn (Z.to_nat (pos s)) (data s)).
Proof.
  intros H. pose proof (init_Ok_prefix _ _ _ H) as Hp.
  rewrite (init_after_prefix s Hp) in H.
  destruct (declared_natoms s =? 0); [discriminate|]. cbv zeta in H.
  assert (Htag : getslice (fst (read 76 s)) 0 8
                 = firstn 8 (skipn (Z.to_nat (pos s)) (data s))).
  { rewrite getslice_head8.
    - unfold read; cbn [fst]. rewrite firstn_firstn. reflexivity.
    - unfold read; cbn [fst]. rewrite length_firstn.
      unfold remaining in Hp. change (Z.to_nat 76) with 76%nat. lia. }
  destruct (if declared_double s then _ else _) as [fl s2].
  destruct (unpack_2f _ fl) as [[tm lm]|]; [|discriminate]. cbn [bind] in H.
  injection H as <- _. cbn. repeat apply conj; try reflexivity; try exact Htag.
Qed.



(** ** The range of the decoded integers *)

Lemma byte_val_range (b : byte) : 0 <= byte_val b < 256.
Proof.
  unfold byte_val. pose proof (Byte.to_N_bounded b). lia.
Qed.

Lemma be_unsigned_snoc (bs : list byte) (b : byte) :
  be_unsigned (bs ++ [b]) = be_unsigned bs * 256 + byte_val b.
Proof. unfold be_unsigned. rewrite fold_left_app. reflexivity. Qed.

Lemma be_unsigned_range (bs : list byte) :
  0 <= be_unsigned bs < 256 ^ Z.of_nat (length bs).
Proof.
  induction bs as [|b bs IH] using rev_ind.
  - cbn. lia.
  - rewrite be_unsigned_snoc, length_app. cbn [length].
    rewrite Nat2Z.inj_add, Z.pow_add_r by lia. change (256 ^ Z.of_nat 1) with 256.
    pose proof (byte_val_range b). nia.
Qed.

Lemma be_int32_range (bs : list byte) :
  (length bs <= 4)%nat -> - 2147483648 <= be_int32 bs < 2147483648.
Proof.
  intros H. unfold be_int32.
  pose proof (be_unsigned_range bs) as Hr.
  assert (Hp : 256 ^ Z.of_nat (length bs) <= 256 ^ 4)
    by (apply Z.pow_le_mono_r; lia).
  change (256 ^ 4) with 4294967296 in Hp.
  destruct (2147483648 <=? be_unsigned bs) eqn:E;
    [apply Z.leb_le in E | apply Z.leb_gt in E]; lia.
Qed.

Lemma fields_In_length (w n : nat) :
  forall bs f, In f (fields w n bs) -> (length f <= w)%nat.
Proof.
  induction n as [|n IH]; intros bs f Hf; cbn [fields] in Hf; [contradiction|].
  destruct Hf as [<-|Hf]; [rewrite length_firstn; lia | eauto].
Qed.

Lemma Forall_firstn_keep {A : Type} (P : A -> Prop) (n : nat) (l : list A) :
  Forall P l -> Forall P (firstn n l).
Proof.
  revert n; induction l as [|x l IH]; intros [|n] H; cbn [firstn]; try constructor.
  - now inversion H.
  - apply IH. now inversion H.
Qed.

Lemma header_ints_range (s : stream) :
  Forall (fun z => - 2147483648 <= z < 2147483648) (header_ints s).
Proof.
  unfold header_ints. apply Forall_map, Forall_forall. intros f Hf.
  apply be_int32_range. eapply fields_In_length; eassumption.
Qed.

Lemma fold_add_range (l : list Z) (b : Z) :
  Forall (fun z => - b <= z < b) l ->
  forall acc, acc - b * Z.of_nat (length l) <= fold_left Z.add l acc
              <= acc + b * Z.of_nat (length l).
Proof.
  induction 1 as [|x l Hx Hl IH]; intros acc; cbn [fold_left length].
  - lia.
  - specialize (IH (acc + x)). lia.
Qed.

(** X4: every integer of a decoded header is a signed 32-bit value, there
    are thirteen of them, and so the frame size (the sum of the first ten)
    and the distance the index scan advances by are bounded in absolute
    value by 10 * 2^31 (plus the header size). *)
Theorem header_fields_int32 (s : stream) (h : TRRHeader.t) (s' : stream) :
  TRRHeader.__init__ s = Ok (h, s') ->
  length (TRRHeader._rawheader h) = 13%nat /\
  Forall (fun z => - 2147483648 <= z < 2147483648) (TRRHeader._rawheader h) /\
  - 21474836480 <= TRRHeader.fsize h <= 21474836480 /\
  - 21474836480 <= TRRHeader.fsize h + TRRHeader.hsize h - 36 <= 21474836608.
Proof.
  intros H.
  destruct (init_Ok_fields s h s' H)
    as (Hraw & _ & _ & _ & _ & _ & _ & Hf & _ & Hh & _).
  pose proof (header_ints_range s) as Hr.
  assert (Hfs : - 21474836480 <= TRRHeader.fsize h <= 21474836480).
  { rewrite Hf. unfold py_sum.
    pose proof (fold_add_range (firstn 10 (header_ints s)) 2147483648
                  (Forall_firstn_keep _ 10 _ Hr) 0) as Hs.
    rewrite length_firstn, header_ints_length in Hs.
    change (Z.of_nat (Nat.min 10 13)) with 10 in Hs. lia. }
  rewrite Hraw. repeat apply conj; try apply header_ints_length; try exact Hr; try lia;
    rewrite Hh; destruct (TRRHeader.double h); lia.
Qed.

Lemma header_fields_int32_witness :
  exists h s',
    TRRHeader.__init__ (open (frame_bytes 4 (-1) 0 0 1 0 x00)) = Ok (h, s') /\
    TRRHeader.positions h = -1 /\
    length (TRRHeader._rawheader h) = 13%nat /\
    Forall (fun z => - 2147483648 <= z < 2147483648) (TRRHeader._rawheader h) /\
    - 21474836480 <= TRRHeader.fsize h <= 21474836480 /\
    - 21474836480 <= TRRHeader.fsize h + TRRHeader.hsize h - 36 <= 21474836608.
Proof.
  assert (E : exists h s',
             TRRHeader.__init__ (open (frame_bytes 4 (-1) 0 0 1 0 x00)) = Ok (h, s') /\
             TRRHeader.positions h = -1)
    by (vm_compute; do 2 eexists; split; reflexivity).
  destruct E as (h & s' & E & Hx). exists h, s'.
  exact (conj E (conj Hx (header_fields_int32 _ h s' E))).
Defined.

(** ** The identification bytes *)

Lemma skipn_prefix {A : Type} (pre rest : list A) (n : nat) :
  length pre = n -> skipn n (pre ++ rest) = rest.
Proof.
  intros <-. rewrite skipn_app, skipn_all, Nat.sub_diag. reflexivity.
Qed.

Lemma skipn_past_prefix {A : Type} (pre rest : list A) (n k : nat) :
  length pre = n -> skipn (n + k) (pre ++ rest) = skipn k rest.
Proof.
  intros <-. rewrite skipn_app, skipn_all2 by lia.
  replace (length pre + k - length pre)%nat with k by lia. reflexivity.
Qed.

(** X5: the decoder never validates the 24 identification bytes in front
    of the integers (magic number, string length, string): whatever they
    are, it fails with the same exception or returns the same header
    fields, the tag (the first 8 of those bytes) apart, and leaves the
    stream at the same position. *)
Theorem tag_not_validated (pre pre' rest : list byte) :
  length pre = 24%nat ->
  length pre' = 24%nat ->
  TRRHeader.__init__ (open (pre' ++ rest)) =
  match TRRHeader.__init__ (open (pre ++ rest)) with
  | Ok (h, s1) =>
      Ok (with_tag (firstn 8 pre') h,
          {| data := pre' ++ rest; pos := pos s1; reads := reads s1 |})
  | Raise e => Raise e
  end.
Proof.
  intros Hl Hl'.
  assert (Hrem : remaining (open (pre' ++ rest)) = remaining (open (pre ++ rest))).
  { unfold remaining. cbn [open pos data]. change (Z.to_nat 0) with 0%nat.
    cbn [skipn]. rewrite !length_app. lia. }
  destruct (le_lt_dec 76 (remaining (open (pre ++ rest)))) as [Hp|Hshort].
  - assert (Hp' : (76 <= remaining (open (pre' ++ rest)))%nat) by lia.
    assert (Hints : header_ints (open (pre' ++ rest)) = header_ints (open (pre ++ rest))).
    { unfold header_ints. cbn [open pos data]. change (Z.to_nat 0) with 0%nat.
      rewrite !skipn_O, !skipn_firstn_comm.
      rewrite (skipn_prefix pre rest 24 Hl), (skipn_prefix pre' rest 24 Hl').
      reflexivity. }
    assert (Hread : forall n,
              read n (snd (read 76 (open (pre' ++ rest)))) =
              (fst (read n (snd (read 76 (open (pre ++ rest))))),
               {| data := pre' ++ rest;
                  pos := pos (snd (read n (snd (read 76 (open (pre ++ rest))))));
                  reads := reads (snd (read n (snd (read 76 (open (pre ++ rest)))))) |})).
    { intros n. unfold remaining in Hp, Hp'. cbn [open pos data] in Hp, Hp'.
      change (Z.to_nat 0) with 0%nat in Hp, Hp'. rewrite !skipn_O in Hp, Hp'.
      unfold read. cbn [open fst snd data pos reads].
      change (Z.to_nat 0) with 0%nat. rewrite !skipn_O.
      rewrite !length_firstn. change (Z.to_nat 76) with 76%nat.
      rewrite (Nat.min_l 76 (length (pre ++ rest))) by lia.
      rewrite (Nat.min_l 76 (length (pre' ++ rest))) by lia.
      change (Z.to_nat (0 + Z.of_nat 76)) with (24 + 52)%nat.
      rewrite (skipn_past_prefix pre rest 24 52 Hl),
              (skipn_past_prefix pre' rest 24 52 Hl').
      reflexivity. }
    assert (Htag : getslice (fst (read 76 (open (pre' ++ rest)))) 0 8 = firstn 8 pre').
    { rewrite getslice_head8.
      - unfold read; cbn [open fst data pos]. change (Z.to_nat 0) with 0%nat.
        rewrite skipn_O, firstn_firstn. change (Nat.min 8 (Z.to_nat 76)) with 8%nat.
        rewrite firstn_app. replace (8 - length pre')%nat with 0%nat by lia.
        cbn [firstn]. apply app_nil_r.
      - unfold read; cbn [open fst data pos]. change (Z.to_nat 0) with 0%nat.
        rewrite skipn_O, length_firstn.
        unfold remaining in Hp'. cbn [open pos data] in Hp'.
        change (Z.to_nat 0) with 0%nat in Hp'. rewrite skipn_O in Hp'.
        change (Z.to_nat 76) with 76%nat. lia. }
    rewrite (init_after_prefix _ Hp), (init_after_prefix _ Hp').
    unfold declared_natoms, declared_double. rewrite Hints, Htag.
    destruct (nth 10 (header_ints (open (pre ++ rest))) 0 =? 0); [reflexivity|].
    cbv zeta.
    destruct (_ =? 8); rewrite Hread;
      match goal with
      | |- context [read ?n (snd (read 76 (open (pre ++ rest))))] =>
          destruct (read n (snd (read 76 (open (pre ++ rest))))) as [fl s2]
      end; cbn [fst snd];
      match goal with
      | |- context [unpack_2f ?w ?x] => destruct (unpack_2f w x) as [[tm lm]|e]
      end; reflexivity.
  - assert (Hshort' : (remaining (open (pre' ++ rest)) < 76)%nat) by lia.
    rewrite (init_short_prefix _ Hshort), (init_short_prefix _ Hshort'). reflexivity.
Qed.

Lemma tag_not_validated_witness :
  length (firstn 24 single_frame) = 24%nat /\
  length (zeros 24) = 24%nat /\
  TRRHeader.__init__ (open (zeros 24 ++ skipn 24 single_frame)) =
  match TRRHeader.__init__ (open (firstn 24 single_frame ++ skipn 24 single_frame)) with
  | Ok (h, s1) =>
      Ok (with_tag (firstn 8 (zeros 24)) h,
          {| data := zeros 24 ++ skipn 24 single_frame;
             pos := pos s1; reads := reads s1 |})
  | Raise e => Raise e
  end.
Proof.
  assert (H1 : length (firstn 24 single_frame) = 24%nat) by reflexivity.
  assert (H2 : length (zeros 24) = 24%nat) by reflexivity.
  exact (conj H1 (conj H2
          (tag_not_validated (firstn 24 single_frame) (zeros 24)
             (skipn 24 single_frame) H1 H2))).
Defined.

(** * Further properties of the index scan *)

(** X6: the scan does not terminate on a frame that does not advance it.
    If the header found at [p] declares sizes with
    [fsize + hsize - 36 = 0], the loop decodes that same header for ever:
    no amount of fuel makes it return, and when the frame is the first one
    construction never completes. *)
Theorem scan_stalls (contents : list byte) (p : Z) (h : TRRHeader.t) (s0 : stream) :
  0 <= p < Z.of_nat (length contents) ->
  TRRHeader.__init__ {| data := contents; pos := p; reads := [] |} = Ok (h, s0) ->
  TRRHeader.fsize h + TRRHeader.hsize h - 36 = 0 ->
  (forall fuel s fr hd,
      data s = contents ->
      TRR.index_loop fuel (Z.of_nat (length contents)) s p fr hd = None) /\
  (p = 0 -> forall fuel sel, TRR.__init__ fuel contents sel = None).
Proof.
  intros Hp Hi Hadv.
  assert (Hloop : forall fuel s fr hd,
            data s = contents ->
            TRR.index_loop fuel (Z.of_nat (length contents)) s p fr hd = None).
  { induction fuel as [|fuel IH]; intros s fr hd Hd; [reflexivity|].
    cbn [TRR.index_loop].
    replace (p <? Z.of_nat (length contents)) with true
      by (symmetry; apply Z.ltb_lt; lia).
    unfold seek. replace (p <? 0) with false by (symmetry; apply Z.ltb_ge; lia).
    cbn [bind].
    destruct (init_same_bytes {| data := contents; pos := p; reads := [] |}
                {| data := data s; pos := p; reads := reads s |}
                h s0 Hd eq_refl Hi) as (t' & Ht).
    rewrite Ht, Hadv, Z.add_0_r.
    apply IH.
    destruct (init_Ok_inv {| data := data s; pos := p; reads := reads s |} _ _
                ltac:(cbn; lia) Ht)
      as (_ & _ & _ & _ & _ & _ & _ & _ & _ & Hdata & _).
    cbn [data] in Hdata. congruence. }
  split; [exact Hloop|].
  intros -> fuel sel. unfold TRR.__init__, file_size. cbn [open data].
  rewrite (Hloop fuel (open contents) [] [] eq_refl). reflexivity.
Qed.

Lemma scan_stalls_witness :
  exists h s0,
    0 <= 0 < Z.of_nat (length (frame_bytes 4 (-120) 0 0 1 0 x00)) /\
    TRRHeader.__init__
      {| data := frame_bytes 4 (-120) 0 0 1 0 x00; pos := 0; reads := [] |}
    = Ok (h, s0) /\
    TRRHeader.fsize h + TRRHeader.hsize h - 36 = 0 /\
    (forall fuel s fr hd,
        data s = frame_bytes 4 (-120) 0 0 1 0 x00 ->
        TRR.index_loop fuel (Z.of_nat (length (frame_bytes 4 (-120) 0 0 1 0 x00)))
                       s 0 fr hd = None) /\
    (0 = 0 -> forall fuel sel,
        TRR.__init__ fuel (frame_bytes 4 (-120) 0 0 1 0 x00) sel = None).
Proof.
  assert (E : exists h s0,
             TRRHeader.__init__
               {| data := frame_bytes 4 (-120) 0 0 1 0 x00; pos := 0; reads := [] |}
             = Ok (h, s0) /\
             TRRHeader.fsize h + TRRHeader.hsize h - 36 = 0)
    by (vm_compute; do 2 eexists; split; reflexivity).
  destruct E as (h & s0 & E & Ha). exists h, s0.
  assert (Hp : 0 <= 0 < Z.of_nat (length (frame_bytes 4 (-120) 0 0 1 0 x00)))
    by (vm_compute; split; [discriminate | reflexivity]).
  exact (conj Hp (conj E (conj Ha
          (scan_stalls (frame_bytes 4 (-120) 0 0 1 0 x00) 0 h s0 Hp E Ha)))).
Defined.

(** X7: with frames that all advance the scan, the scan terminates.  If at
    every position where a header decodes, the header declares
    [fsize + hsize - 36 > 0], then one unit of fuel per byte of the file
    plus one is enough for the loop to end, by returning or by raising. *)
Theorem scan_terminates (contents : list byte) :
  (forall p h s',
      0 <= p ->
      TRRHeader.__init__ {| data := contents; pos := p; reads := [] |} = Ok (h, s') ->
      0 < TRRHeader.fsize h + TRRHeader.hsize h - 36) ->
  exists r,
    TRR.index_loop (S (length contents)) (file_size (open contents))
                   (open contents) 0 [] [] = Some r.
Proof.
  intros Hadv.
  assert (Hloop : forall fuel s p fr hd,
            data s = contents -> 0 <= p ->
            (0 < fuel)%nat ->
            Z.of_nat (length contents) - p < Z.of_nat fuel ->
            exists r, TRR.index_loop fuel (Z.of_nat (length contents)) s p fr hd
                      = Some r).
  { induction fuel as [|fuel IH]; intros s p fr hd Hd Hp Hf0 Hf; [lia|].
    cbn [TRR.index_loop].
    destruct (p <? Z.of_nat (length contents)) eqn:Ep; [|eauto].
    apply Z.ltb_lt in Ep.
    unfold seek. replace (p <? 0) with false by (symmetry; apply Z.ltb_ge; lia).
    cbn [bind].
    destruct (TRRHeader.__init__ _) as [[h s1]|e] eqn:Ei; [|eauto].
    destruct (init_same_bytes {| data := data s; pos := p; reads := reads s |}
                {| data := contents; pos := p; reads := [] |}
                h s1 (eq_sym Hd) eq_refl Ei) as (t' & Ht).
    pose proof (Hadv p h t' Hp Ht) as Hpos.
    destruct (init_Ok_inv {| data := data s; pos := p; reads := reads s |} _ _
                Hp Ei)
      as (_ & _ & _ & _ & _ & _ & _ & _ & _ & Hdata & _).
    cbn [data] in Hdata.
    apply IH; [congruence | lia | lia | lia]. }
  unfold file_size. cbn [open data].
  apply Hloop; [reflexivity | lia | lia | lia].
Qed.

Lemma scan_terminates_witness :
  (forall p h s',
      0 <= p ->
      TRRHeader.__init__ {| data := single_frame; pos := p; reads := [] |} = Ok (h, s') ->
      0 < TRRHeader.fsize h + TRRHeader.hsize h - 36) /\
  exists r,
    TRR.index_loop (S (length single_frame)) (file_size (open single_frame))
                   (open single_frame) 0 [] [] = Some r.
Proof.
  assert (Hall :
    forallb (fun n =>
               match TRRHeader.__init__
                       {| data := single_frame; pos := Z.of_nat n; reads := [] |} with
               | Ok (h, _) => 0 <? TRRHeader.fsize h + TRRHeader.hsize h - 36
               | Raise _ => true
               end) (seq 0 69) = true)
    by (vm_compute; reflexivity).
  assert (H : forall p h s',
      0 <= p ->
      TRRHeader.__init__ {| data := single_frame; pos := p; reads := [] |} = Ok (h, s') ->
      0 < TRRHeader.fsize h + TRRHeader.hsize h - 36).
  { intros p h s' Hp Hi.
    pose proof (init_Ok_prefix _ _ _ Hi) as Hrem.
    unfold remaining in Hrem. cbn [data pos] in Hrem. rewrite length_skipn in Hrem.
    change (length single_frame) with 144%nat in Hrem.
    rewrite forallb_forall in Hall.
    specialize (Hall (Z.to_nat p) ltac:(apply in_seq; lia)).
    rewrite Z2Nat.id in Hall by lia. rewrite Hi in Hall.
    apply Z.ltb_lt. exact Hall. }
  exact (conj H (scan_terminates single_frame H)).
Defined.

(** ** Stray bytes after the last frame *)

Lemma window_app {A : Type} (d tail : list A) (a n : nat) :
  (a + n <= length d)%nat ->
  firstn n (skipn a (d ++ tail)) = firstn n (skipn a d).
Proof.
  intros H. rewrite skipn_app, firstn_app, length_skipn.
  replace (n - (length d - a))%nat with 0%nat by lia.
  cbn [firstn]. apply app_nil_r.
Qed.

(** A header that decodes still decodes, to the same header, when bytes
    are appended to the file. *)
Lemma init_extend (d tail : list byte) (p : Z) (l : list (Z * Z))
    (h : TRRHeader.t) (s' : stream) :
  0 <= p ->
  TRRHeader.__init__ {| data := d; pos := p; reads := l |} = Ok (h, s') ->
  exists s'',
    TRRHeader.__init__ {| data := d ++ tail; pos := p; reads := l |} = Ok (h, s'').
Proof.
  intros Hp0 H.
  set (s := {| data := d; pos := p; reads := l |}) in *.
  set (t := {| data := d ++ tail; pos := p; reads := l |}).
  pose proof (init_Ok_prefix _ _ _ H) as Hp.
  pose proof Hp as Hps.
  destruct (init_Ok_inv s h s' Hp0 H)
    as (Hn & _ & Hd & _ & _ & _ & _ & _ & _ & _ & _ & _ & Hneed).
  unfold remaining in Hp, Hneed. cbn [data pos s] in Hp, Hneed.
  rewrite length_skipn in Hp, Hneed.
  assert (Hp' : (76 <= remaining t)%nat).
  { unfold remaining. cbn [data pos t]. rewrite length_skipn, length_app. lia. }
  assert (H76 : firstn 76 (skipn (Z.to_nat p) (d ++ tail))
                = firstn 76 (skipn (Z.to_nat p) d))
    by (apply window_app; lia).
  assert (Hints : header_ints t = header_ints s).
  { unfold header_ints. cbn [data pos s t]. now rewrite H76. }
  assert (Hfst : fst (read 76 t) = fst (read 76 s)).
  { unfold read. cbn [fst data pos s t]. exact H76. }
  assert (Hread : forall n,
            (Z.to_nat p + 76 + Z.to_nat n <= length d)%nat ->
            fst (read n (snd (read 76 t))) = fst (read n (snd (read 76 s)))).
  { intros n Hn'. unfold read. cbn [fst snd data pos s t].
    rewrite !length_firstn, !length_skipn, length_app.
    change (Z.to_nat 76) with 76%nat.
    rewrite (Nat.min_l 76 (length d + length tail - Z.to_nat p)) by lia.
    rewrite (Nat.min_l 76 (length d - Z.to_nat p)) by lia.
    apply window_app. lia. }
  rewrite (init_after_prefix s Hps) in H.
  rewrite (init_after_prefix t Hp').
  unfold declared_natoms, declared_double in *. rewrite Hints, Hfst.
  destruct (nth 10 (header_ints s) 0 =? 0); [discriminate|].
  cbv zeta in *. rewrite Hd in Hneed.
  destruct (_ =? 8).
  - specialize (Hread 16 ltac:(lia)).
    destruct (read 16 (snd (read 76 t))) as [fl' t2].
    destruct (read 16 (snd (read 76 s))) as [fl s2].
    cbn [fst] in Hread. subst fl'.
    destruct (unpack_2f 8 fl) as [[tm lm]|]; [|discriminate].
    cbn [bind] in *. injection H as <- _. eauto.
  - specialize (Hread 8 ltac:(lia)).
    destruct (read 8 (snd (read 76 t))) as [fl' t2].
    destruct (read 8 (snd (read 76 s))) as [fl s2].
    cbn [fst] in Hread. subst fl'.
    destruct (unpack_2f 4 fl) as [[tm lm]|]; [|discriminate].
    cbn [bind] in *. injection H as <- _. eauto.
Qed.

(** On single-precision frames laid end to end and followed by anything,
    the scan walks over the frames and goes on at their end. *)
Lemma index_loop_prefix (good : list byte) (p : Z) (hs : list TRRHeader.t) :
  well_formed good p hs ->
  Forall (fun h => TRRHeader.double h = false) hs ->
  forall tail fuel s fr hd,
    tail <> [] ->
    data s = good ++ tail ->
    exists s',
      data s' = good ++ tail /\
      TRR.index_loop (length hs + fuel) (Z.of_nat (length (good ++ tail))) s p fr hd
      = TRR.index_loop fuel (Z.of_nat (length (good ++ tail))) s'
          (Z.of_nat (length good)) (fr ++ offsets_from p hs) (hd ++ hs).
Proof.
  induction 1 as [|p h s0 hs Hp Hi Hnn Hna Hfit Hwf IH];
    intros Hs tail fuel s fr hd Htail Hd.
  - exists s. cbn [length Nat.add offsets_from]. rewrite !app_nil_r. auto.
  - inversion Hs as [|? ? Hsingle Hs']; subst.
    pose proof (wf_frame_positive _ _ _ _ _ Hp Hi Hnn) as Hlen.
    assert (Hsize : p < Z.of_nat (length (good ++ tail)))
      by (rewrite length_app; lia).
    cbn [length Nat.add TRR.index_loop].
    replace (p <? Z.of_nat (length (good ++ tail))) with true
      by (symmetry; apply Z.ltb_lt; lia).
    unfold seek. replace (p <? 0) with false by (symmetry; apply Z.ltb_ge; lia).
    cbn [bind].
    destruct (init_extend good tail p [] h s0 Hp Hi) as (s1 & Hi1).
    destruct (init_same_bytes {| data := good ++ tail; pos := p; reads := [] |}
                {| data := data s; pos := p; reads := reads s |}
                h s1 Hd eq_refl Hi1) as (t' & Ht).
    rewrite Ht.
    assert (Hdt : data t' = good ++ tail).
    { destruct (init_Ok_inv {| data := data s; pos := p; reads := reads s |} _ _ Hp Ht)
        as (_ & _ & _ & _ & _ & _ & _ & _ & _ & Hdata & _).
      cbn [data] in Hdata. congruence. }
    rewrite (single_advance _ _ _ _ _ Hp Hi Hsingle).
    destruct (IH Hs' tail fuel t' (fr ++ [p]) (hd ++ [h]) Htail Hdt) as (s' & Hd' & IH').
    exists s'. split; [exact Hd'|]. rewrite IH'. cbn [offsets_from].
    rewrite (single_advance _ _ _ _ _ Hp Hi Hsingle), <- !app_assoc. reflexivity.
Qed.

(** X8: a file is rejected as a whole when it ends inside a header.  If
    complete single-precision frames (possibly none) are followed by 1 to
    75 more bytes, construction raises struct.error whatever the selection;
    no trajectory of the complete frames is returned. *)
Theorem stray_tail_rejected (good tail : list byte) (hs : list TRRHeader.t) :
  well_formed good 0 hs ->
  Forall (fun h => TRRHeader.double h = false) hs ->
  (0 < length tail < 76)%nat ->
  forall fuel sel,
    (length hs < fuel)%nat ->
    TRR.__init__ fuel (good ++ tail) sel = Some (Raise StructError).
Proof.
  intros Hwf Hs Htail fuel sel Hfuel.
  assert (Hne : tail <> []) by (destruct tail; [cbn in Htail; lia | discriminate]).
  unfold TRR.__init__, file_size. cbn [open data].
  replace fuel with (length hs + S (fuel - length hs - 1))%nat by lia.
  destruct (index_loop_prefix good 0 hs Hwf Hs tail (S (fuel - length hs - 1))
              (open (good ++ tail)) [] [] Hne eq_refl) as (s' & Hd & ->).
  cbn [TRR.index_loop].
  replace (Z.of_nat (length good) <? Z.of_nat (length (good ++ tail))) with true
    by (symmetry; apply Z.ltb_lt; rewrite length_app; lia).
  unfold seek.
  replace (Z.of_nat (length good) <? 0) with false by (symmetry; apply Z.ltb_ge; lia).
  cbn [bind]. rewrite init_short_prefix; [reflexivity|].
  unfold remaining. cbn [data pos]. rewrite Hd, Nat2Z.id, length_skipn, length_app. lia.
Qed.

Lemma stray_tail_rejected_witness :
  well_formed two_single_frames 0 [single_header; single_header] /\
  Forall (fun h => TRRHeader.double h = false) [single_header; single_header] /\
  (0 < length (firstn 40 single_frame) < 76)%nat /\
  forall fuel sel,
    (length [single_header; single_header] < fuel)%nat ->
    TRR.__init__ fuel (two_single_frames ++ firstn 40 single_frame) sel
    = Some (Raise StructError).
Proof.
  assert (H2 : Forall (fun h => TRRHeader.double h = false)
                 [single_header; single_header])
    by (repeat constructor).
  assert (H3 : (0 < length (firstn 40 single_frame) < 76)%nat)
    by (vm_compute; split; repeat constructor).
  exact (conj two_single_frames_wf (conj H2 (conj H3
          (stray_tail_rejected two_single_frames (firstn 40 single_frame)
             [single_header; single_header] two_single_frames_wf H2 H3)))).
Defined.

(** X9: the offset rule holds on any file, whatever the precision and
    however malformed: when the scan returns, the first recorded offset is
    0, each next one is the previous plus that frame's
    [fsize + hsize - 36], every recorded offset is below the file size and
    the position after the last frame is not; there is one header per
    offset. *)
Theorem scan_offsets_any_file (contents : list byte) (fuel : nat) (s' : stream)
    (offs : list Z) (hs : list TRRHeader.t) :
  TRR.index_loop fuel (file_size (open contents)) (open contents) 0 [] []
  = Some (Ok (s', offs, hs)) ->
  offs = offsets_from 0 hs /\
  length offs = length hs /\
  Forall (fun o => o < file_size (open contents)) offs /\
  file_size (open contents) <= end_from 0 hs /\
  data s' = contents.
Proof.
  intros H.
  destruct (index_loop_offsets _ _ _ _ _ _ _ _ _ H) as (hs' & Hhs & Hoffs & Hlt & Hend).
  cbn [app] in Hhs, Hoffs. subst hs' offs.
  repeat apply conj; try assumption; try reflexivity.
  - apply offsets_from_length.
  - apply (index_loop_reads _ _ _ _ _ _ _ _ _ H). constructor.
Qed.

Lemma scan_offsets_any_file_witness :
  exists s' offs hs,
    TRR.index_loop 3 (file_size (open double_frame)) (open double_frame) 0 [] []
    = Some (Ok (s', offs, hs)) /\
    map TRRHeader.double hs = [true] /\
    offs = offsets_from 0 hs /\
    length offs = length hs /\
    Forall (fun o => o < file_size (open double_frame)) offs /\
    file_size (open double_frame) <= end_from 0 hs /\
    data s' = double_frame.
Proof.
  assert (E : exists s' offs hs,
             TRR.index_loop 3 (file_size (open double_frame)) (open double_frame)
                            0 [] []
             = Some (Ok (s', offs, hs)) /\
             map TRRHeader.double hs = [true])
    by (vm_compute; do 3 eexists; split; reflexivity).
  destruct E as (s' & offs & hs & E & Hd). exists s', offs, hs.
  exact (conj E (conj Hd (scan_offsets_any_file double_frame 3 s' offs hs E))).
Defined.

(** * Further properties of construction *)

Lemma map2_length {A B C : Type} (f : A -> B -> C) (l : list A) (l' : list B) :
  length l = length l' -> length (map2 f l l') = length l.
Proof.
  revert l'; induction l as [|x l IH]; intros [|y l'] H; try discriminate;
    cbn [map2 length]; [reflexivity|].
  f_equal. apply IH. now injection H.
Qed.

Lemma init_times (fuel : nat) (contents : list byte) (sel : atom_selection)
    (t : TRR.t) :
  TRR.__init__ fuel contents sel = Some (Ok t) ->
  TRR.times t = map TRRHeader.time (TRR.headers t).
Proof.
  unfold TRR.__init__.
  destruct (TRR.index_loop _ _ _ _ _ _) as [[[[s fr] hd]|e]|]; try discriminate.
  intros H. injection H as H.
  destruct (TRR.geometry fr hd) as [[[sizes have] starts]|e]; [|discriminate].
  cbn [bind] in H.
  destruct (getitem hd 0) as [h0|e]; [|discriminate]. cbn [bind] in H.
  destruct (TRR.resolve _ sel) as [[sel' maxidx]|e]; [|discriminate].
  cbn [bind] in H. injection H as <-. reflexivity.
Qed.

(** The rows of the geometry, by block type. *)
Lemma geometry_rows (fuel : nat) (contents : list byte) (sel : atom_selection)
    (t : TRR.t) :
  TRR.__init__ fuel contents sel = Some (Ok t) ->
  exists h0,
    nth_error (TRR.headers t) 0 = Some h0 /\
    TRR.natoms t = TRRHeader.natoms h0 /\
    TRR.frames t = offsets_from 0 (TRR.headers t) /\
    forall b,
      getitem (TRR._sizes t) (block_index b)
      = Ok (map (declared_size b) (TRR.headers t)) /\
      getitem (TRR._have t) (block_index b)
      = Ok (map (fun h => negb (declared_size b h =? 0)) (TRR.headers t)) /\
      exists row,
        getitem (TRR._starts t) (block_index b) = Ok row /\
        length row = length (TRR.headers t) /\
        (b = Positions ->
         row = map (fun o => o + TRRHeader.hsize h0) (TRR.frames t)).
Proof.
  intros H.
  destruct (init_Ok_inv_TRR _ _ _ _ H) as (h0' & Hl & Hg & Hh0' & Hn & _).
  destruct (geometry_starts _ _ _ _ _ Hg) as (h0 & Hh0 & Hsz & Hhv & Hst).
  destruct (index_loop_offsets _ _ _ _ _ _ _ _ _ Hl) as (hs & Hhs & Hfr & _).
  cbn [app] in Hhs, Hfr. subst hs.
  assert (Hsame : h0' = h0).
  { destruct (TRR.headers t) as [|x l]; [discriminate|].
    cbn in Hh0. injection Hh0 as ->.
    change (getitem (h0 :: l) 0) with (Ok h0) in Hh0'. now injection Hh0'. }
  subst h0'. exists h0. repeat apply conj; try assumption.
  assert (Hlen : length (TRR.frames t) = length (TRR.headers t))
    by (rewrite Hfr; apply offsets_from_length).
  intros b. rewrite Hhv, Hsz, Hst. cbn [map]. rewrite !map_map.
  destruct b; cbn [block_index declared_size].
  - split; [reflexivity|]. split; [reflexivity|].
    eexists. split; [reflexivity|]. split; [|reflexivity].
    now rewrite length_map.
  - split; [reflexivity|]. split; [reflexivity|].
    eexists. split; [reflexivity|]. split; [|discriminate].
    rewrite map2_length; rewrite !length_map; assumption.
  - split; [reflexivity|]. split; [reflexivity|].
    eexists. split; [reflexivity|]. split; [|discriminate].
    rewrite map2_length; [rewrite map2_length|rewrite map2_length];
      rewrite !length_map; assumption.
Qed.

(** X10: what construction leaves behind has one shape.  With [n] the
    number of recorded offsets, [n] is at least 1, the first offset is 0,
    there are [n] headers and [n] times (the time of each header), the atom
    count is the one of the first header, and for each of the three block
    types the size, presence and start rows have [n] entries. *)
Theorem construction_shapes (fuel : nat) (contents : list byte)
    (sel : atom_selection) (t : TRR.t) :
  TRR.__init__ fuel contents sel = Some (Ok t) ->
  (1 <= length (TRR.frames t))%nat /\
  nth_error (TRR.frames t) 0 = Some 0 /\
  length (TRR.headers t) = length (TRR.frames t) /\
  TRR.times t = map TRRHeader.time (TRR.headers t) /\
  (exists h0, nth_error (TRR.headers t) 0 = Some h0 /\
              TRR.natoms t = TRRHeader.natoms h0) /\
  forall b,
    exists sizes have starts,
      getitem (TRR._sizes t) (block_index b) = Ok sizes /\
      getitem (TRR._have t) (block_index b) = Ok have /\
      getitem (TRR._starts t) (block_index b) = Ok starts /\
      length sizes = length (TRR.frames t) /\
      length have = length (TRR.frames t) /\
      length starts = length (TRR.frames t).
Proof.
  intros H.
  destruct (geometry_rows _ _ _ _ H) as (h0 & Hh0 & Hn & Hfr & Hrows).
  assert (Hlen : length (TRR.frames t) = length (TRR.headers t))
    by (rewrite Hfr; apply offsets_from_length).
  repeat apply conj.
  - rewrite Hlen. destruct (TRR.headers t); [discriminate | cbn; lia].
  - rewrite Hfr. destruct (TRR.headers t); [discriminate | reflexivity].
  - now rewrite Hlen.
  - apply (init_times _ _ _ _ H).
  - exists h0. auto.
  - intros b. destruct (Hrows b) as (Hs & Hv & row & Hr & Hrl & _).
    do 3 eexists. repeat apply conj; try eassumption;
      rewrite ?length_map; congruence.
Qed.

Lemma construction_shapes_witness :
  exists t,
    TRR.__init__ 3 mixed_frames default_selection = Some (Ok t) /\
    length (TRR.frames t) = 2%nat /\
    (1 <= length (TRR.frames t))%nat /\
    nth_error (TRR.frames t) 0 = Some 0 /\
    length (TRR.headers t) = length (TRR.frames t) /\
    TRR.times t = map TRRHeader.time (TRR.headers t) /\
    (exists h0, nth_error (TRR.headers t) 0 = Some h0 /\
                TRR.natoms t = TRRHeader.natoms h0) /\
    forall b,
      exists sizes have starts,
        getitem (TRR._sizes t) (block_index b) = Ok sizes /\
        getitem (TRR._have t) (block_index b) = Ok have /\
        getitem (TRR._starts t) (block_index b) = Ok starts /\
        length sizes = length (TRR.frames t) /\
        length have = length (TRR.frames t) /\
        length starts = length (TRR.frames t).
Proof.
  assert (E : exists t,
             TRR.__init__ 3 mixed_frames default_selection = Some (Ok t) /\
             length (TRR.frames t) = 2%nat)
    by (vm_compute; eexists; split; reflexivity).
  destruct E as (t & E & Hl). exists t.
  exact (conj E (conj Hl (construction_shapes 3 mixed_frames default_selection t E))).
Defined.

(** X11: a frame carries a block exactly when its header declares a
    non-zero size for it.  For each block type [b], the size row holds in
    place [i] the size the header of frame [i] declares for [b], and the
    presence flag of [b] in frame [i] is true for every size other than 0,
    a negative one included. *)
Theorem presence_flags (fuel : nat) (contents : list byte)
    (sel : atom_selection) (t : TRR.t) :
  TRR.__init__ fuel contents sel = Some (Ok t) ->
  forall b, exists sizes have,
    getitem (TRR._sizes t) (block_index b) = Ok sizes /\
    getitem (TRR._have t) (block_index b) = Ok have /\
    forall i h,
      nth_error (TRR.headers t) i = Some h ->
      nth_error sizes i = Some (declared_size b h) /\
      exists flag,
        nth_error have i = Some flag /\
        (flag = true <-> declared_size b h <> 0).
Proof.
  intros H b.
  destruct (geometry_rows _ _ _ _ H) as (h0 & _ & _ & _ & Hrows).
  destruct (Hrows b) as (Hz & Hv & _).
  do 2 eexists. split; [exact Hz|]. split; [exact Hv|].
  intros i h Hh. split; [apply map_nth_error; exact Hh|].
  eexists. split; [apply map_nth_error; exact Hh|].
  split.
  - intros E. apply negb_true_iff, Z.eqb_neq in E. exact E.
  - intros E. apply negb_true_iff, Z.eqb_neq. exact E.
Qed.

Lemma presence_flags_witness :
  exists t,
    TRR.__init__ 2 (frame_bytes 4 (-1) 0 0 1 0 x00) default_selection
    = Some (Ok t) /\
    map TRRHeader.positions (TRR.headers t) = [-1] /\
    forall b, exists sizes have,
      getitem (TRR._sizes t) (block_index b) = Ok sizes /\
      getitem (TRR._have t) (block_index b) = Ok have /\
      forall i h,
        nth_error (TRR.headers t) i = Some h ->
        nth_error sizes i = Some (declared_size b h) /\
        exists flag,
          nth_error have i = Some flag /\
          (flag = true <-> declared_size b h <> 0).
Proof.
  assert (E : exists t,
             TRR.__init__ 2 (frame_bytes 4 (-1) 0 0 1 0 x00) default_selection
             = Some (Ok t) /\
             map TRRHeader.positions (TRR.headers t) = [-1])
    by (vm_compute; eexists; split; reflexivity).
  destruct E as (t & E & Hx). exists t.
  exact (conj E (conj Hx
          (presence_flags 2 (frame_bytes 4 (-1) 0 0 1 0 x00) default_selection t E))).
Defined.

(** * Further properties of the block readers *)

Lemma getitem_nth {A : Type} (l : list A) (j : nat) (x : A) :
  nth_error l j = Some x -> getitem l (Z.of_nat j) = Ok x.
Proof.
  intros H. unfold getitem. cbv zeta.
  assert (Hj : (j < length l)%nat) by (apply nth_error_Some; congruence).
  replace (Z.of_nat j <? 0) with false by (symmetry; apply Z.ltb_ge; lia).
  cbv iota.
  replace (Z.of_nat j <? 0) with false by (symmetry; apply Z.ltb_ge; lia).
  replace (Z.of_nat (length l) <=? Z.of_nat j) with false
    by (symmetry; apply Z.leb_gt; lia).
  cbn [orb]. rewrite Nat2Z.id, H. reflexivity.
Qed.

Lemma skipn_nth_cons {A : Type} (row : list A) :
  forall k x, nth_error row k = Some x -> skipn k row = x :: skipn (S k) row.
Proof.
  induction row as [|y row IH]; intros [|k] x E; try discriminate; cbn in *.
  - now injection E as ->.
  - now apply IH.
Qed.

Lemma take_seq {A : Type} (row : list A) :
  forall n k,
    (k + n <= length row)%nat ->
    take row (map Z.of_nat (seq k n)) = Ok (firstn n (skipn k row)).
Proof.
  induction n as [|n IH]; intros k Hlen; cbn [seq map take firstn].
  - reflexivity.
  - destruct (nth_error row k) as [x|] eqn:Ex.
    2:{ apply nth_error_None in Ex. lia. }
    rewrite (getitem_nth row k x Ex). cbn [bind].
    rewrite (IH (S k)) by lia. cbn [bind].
    rewrite (skipn_nth_cons row k x Ex). reflexivity.
Qed.

(** The default selection picks every position of the axis, in order. *)
Lemma index_row_default (m : nat) :
  index_row default_selection (map Z.of_nat (seq 0 m)) = Ok (map Z.of_nat (seq 0 m)).
Proof.
  unfold default_selection, index_row, slice_indices.
  change (1 =? 0) with false. change (1 <? 0) with false. cbv iota zeta.
  rewrite length_map, length_seq. cbn [bind].
  set (len := if 0 <? Z.of_nat m then (Z.of_nat m - 0 - 1) / 1 + 1 else 0).
  assert (Hlen : Z.to_nat len = m).
  { subst len. destruct (0 <? Z.of_nat m) eqn:E.
    - rewrite Z.div_1_r. lia.
    - apply Z.ltb_ge in E. lia. }
  rewrite Hlen.
  replace (map (fun i : nat => 0 + Z.of_nat i * 1) (seq 0 m))
    with (map Z.of_nat (seq 0 m))
    by (apply map_ext; intros; lia).
  rewrite take_seq by (rewrite length_map, length_seq; lia).
  rewrite skipn_O, firstn_all2 by (rewrite length_map, length_seq; lia).
  reflexivity.
Qed.

Lemma nth_positions {A : Type} (d : A) (fr : list A) :
  map (fun i => nth (Z.to_nat i) fr d) (map Z.of_nat (seq 0 (length fr))) = fr.
Proof.
  rewrite map_map.
  erewrite map_ext by (intros; rewrite Nat2Z.id; reflexivity).
  induction fr as [|x fr IH]; [reflexivity|].
  cbn [length seq map nth]. f_equal.
  rewrite <- seq_shift, map_map. exact IH.
Qed.

(** With the default selection, [X[:, selection]] is [X]. *)
Lemma index_axis1_default (m : Z) (frs : list (list (list f4))) :
  0 <= m ->
  Forall (fun fr => length fr = Z.to_nat m) frs ->
  TRR.index_axis1 default_selection {| axis1 := m; frames_data := frs |}
  = Ok {| axis1 := m; frames_data := frs |}.
Proof.
  intros Hm Hfr. unfold TRR.index_axis1. cbn [axis1 frames_data].
  rewrite index_row_default. cbn [bind].
  rewrite length_map, length_seq, Z2Nat.id by lia.
  f_equal. f_equal.
  induction Hfr as [|fr frs Hl Hfr IH]; [reflexivity|].
  cbn [map]. rewrite IH. f_equal.
  rewrite <- Hl. apply nth_positions.
Qed.

Lemma compress_none {A : Type} (mask : list bool) (row : list A) :
  Forall (fun b => b = false) mask -> compress mask row = [].
Proof.
  intros H. revert row. induction H as [|b mask -> _ IH]; intros [|x row];
    cbn [compress]; auto.
Qed.

Lemma compress_all {A : Type} (mask : list bool) (row : list A) :
  Forall (fun b => b = true) mask -> length mask = length row ->
  compress mask row = row.
Proof.
  intros H. revert row. induction H as [|b mask -> _ IH]; intros [|x row] Hl;
    try discriminate; cbn [compress]; [reflexivity|].
  f_equal. apply IH. now injection Hl.
Qed.

(** On a newly constructed trajectory an accessor is its [_read]; only the
    cache slot differs afterwards. *)
Lemma fresh_accessor_read (fuel : nat) (contents : list byte)
    (sel : atom_selection) (t : TRR.t) (b : block) :
  TRR.__init__ fuel contents sel = Some (Ok t) ->
  match TRR._read (block_index b) t with
  | Ok (X, t1) => exists t', accessor b t = Ok (X, t') /\ TRR.trr t' = TRR.trr t1
  | Raise e => accessor b t = Raise e
  end.
Proof.
  intros H.
  destruct (init_Ok_inv_TRR _ _ _ _ H) as (h0 & _ & _ & _ & _ & _ & Hp & Hv & Hf).
  destruct b; cbn [accessor block_index];
    [unfold TRR.positions; rewrite Hp
    |unfold TRR.velocities; rewrite Hv
    |unfold TRR.forces; rewrite Hf];
    match goal with
    | |- context [TRR._read ?k t] => destruct (TRR._read k t) as [[X t1]|e]
    end; cbn [bind]; try reflexivity; eexists; split; reflexivity.
Qed.

(** X12: a block type that no frame carries reads as an empty array, not
    as an error, and without touching the file: whatever the selection, an
    array an accessor returns for it has no frame and the file handle is as
    before; with the default selection and a non-negative atom count the
    accessor does return, an array of shape (0, natoms, 3). *)
Theorem absent_block_empty (fuel : nat) (contents : list byte)
    (sel : atom_selection) (t : TRR.t) (b : block) :
  TRR.__init__ fuel contents sel = Some (Ok t) ->
  (forall h, In h (TRR.headers t) -> declared_size b h = 0) ->
  (forall X t', accessor b t = Ok (X, t') ->
                frames_data X = [] /\ TRR.trr t' = TRR.trr t) /\
  (sel = default_selection -> 0 <= TRR.natoms t ->
   exists t', accessor b t
              = Ok ({| axis1 := TRR.natoms t; frames_data := [] |}, t')).
Proof.
  intros H Hzero.
  destruct (geometry_rows _ _ _ _ H) as (h0 & _ & _ & _ & Hrows).
  destruct (Hrows b) as (_ & Hv & row & Hr & _).
  destruct (init_Ok_inv_TRR _ _ _ _ H) as (_ & _ & _ & _ & _ & Hres & _).
  assert (Hnone : compress (map (fun h => negb (declared_size b h =? 0))
                               (TRR.headers t)) row = []).
  { apply compress_none, Forall_map, Forall_forall. intros h Hh.
    rewrite (Hzero h Hh). reflexivity. }
  pose proof (fresh_accessor_read _ _ _ _ b H) as Hacc.
  unfold TRR._read in Hacc. rewrite Hv, Hr in Hacc. cbn [bind] in Hacc.
  rewrite Hnone in Hacc. cbn [TRR.read_frames bind] in Hacc.
  split.
  - intros X t' Ha.
    destruct (TRR._maxidx t <? 0); [congruence|].
    unfold TRR.index_axis1 in Hacc. cbn [axis1 frames_data map] in Hacc.
    destruct (index_row _ _) as [picked|]; cbn [bind] in Hacc; [|congruence].
    destruct Hacc as (t'' & Ha' & Htrr). rewrite Ha in Ha'.
    injection Ha' as HX Ht. subst X t''.
    split; [reflexivity|]. rewrite Htrr. reflexivity.
  - intros -> Hn. cbn [TRR.resolve] in Hres. injection Hres as Hs Hm.
    rewrite <- Hs, <- Hm in Hacc.
    replace (TRR.natoms t <? 0) with false in Hacc by (symmetry; apply Z.ltb_ge; lia).
    change (SelSlice None None None) with default_selection in Hacc.
    rewrite index_axis1_default in Hacc by (assumption || constructor).
    cbn [bind] in Hacc. destruct Hacc as (t' & Ha & _). eauto.
Qed.

Lemma absent_block_empty_witness :
  exists t,
    TRR.__init__ 3 two_single_frames default_selection = Some (Ok t) /\
    (forall h, In h (TRR.headers t) -> declared_size Velocities h = 0) /\
    0 <= TRR.natoms t /\
    (forall X t', accessor Velocities t = Ok (X, t') ->
                  frames_data X = [] /\ TRR.trr t' = TRR.trr t) /\
    (default_selection = default_selection -> 0 <= TRR.natoms t ->
     exists t', accessor Velocities t
                = Ok ({| axis1 := TRR.natoms t; frames_data := [] |}, t')).
Proof.
  assert (E : exists t,
             TRR.__init__ 3 two_single_frames default_selection = Some (Ok t) /\
             map (declared_size Velocities) (TRR.headers t) = [0; 0] /\
             0 <= TRR.natoms t)
    by (vm_compute; eexists; repeat apply conj; try reflexivity; discriminate).
  destruct E as (t & E & Hz & Hn). exists t.
  assert (Hzero : forall h, In h (TRR.headers t) -> declared_size Velocities h = 0).
  { intros h Hh. apply (in_map (declared_size Velocities)) in Hh.
    rewrite Hz in Hh. destruct Hh as [<-|[<-|[]]]; reflexivity. }
  exact (conj E (conj Hzero (conj Hn
          (absent_block_empty 3 two_single_frames default_selection t Velocities
             E Hzero)))).
Defined.

(** X13: a negative atom count is not refused at construction but makes
    every read fail.  On a file that indexes, an integer selection [k] with
    [min(k, natoms) < 0] is accepted, and each of the three accessors then
    raises ValueError (a negative array dimension) before any read. *)
Theorem negative_count_fails_at_read (fuel : nat) (contents : list byte)
    (t0 : TRR.t) (k : Z) :
  TRR.__init__ fuel contents default_selection = Some (Ok t0) ->
  Z.min k (TRR.natoms t0) < 0 ->
  exists t,
    TRR.__init__ fuel contents (SelInt k) = Some (Ok t) /\
    TRR._maxidx t = Z.min k (TRR.natoms t0) /\
    forall b, accessor b t = Raise ValueError.
Proof.
  intros H0 Hneg.
  pose proof (init_resolve fuel contents (SelInt k) t0 H0) as Hi.
  cbn [TRR.resolve bind] in Hi.
  eexists. split; [exact Hi|]. split; [reflexivity|].
  intros b.
  pose proof (fresh_accessor_read _ _ _ _ b Hi) as Hacc.
  destruct (geometry_rows _ _ _ _ Hi) as (h0 & _ & _ & _ & Hrows).
  destruct (Hrows b) as (_ & Hv & _).
  unfold TRR._read in Hacc. rewrite Hv in Hacc. cbn [bind TRR._maxidx] in Hacc.
  replace (Z.min k (TRR.natoms t0) <? 0) with true in Hacc
    by (symmetry; apply Z.ltb_lt; lia).
  exact Hacc.
Qed.

Lemma negative_count_fails_at_read_witness :
  exists t0,
    TRR.__init__ 3 two_single_frames default_selection = Some (Ok t0) /\
    Z.min (-1) (TRR.natoms t0) < 0 /\
    exists t,
      TRR.__init__ 3 two_single_frames (SelInt (-1)) = Some (Ok t) /\
      TRR._maxidx t = Z.min (-1) (TRR.natoms t0) /\
      forall b, accessor b t = Raise ValueError.
Proof.
  assert (E : exists t0,
             TRR.__init__ 3 two_single_frames default_selection = Some (Ok t0) /\
             TRR.natoms t0 = 2)
    by (vm_compute; eexists; split; reflexivity).
  destruct E as (t0 & E & Hn). exists t0.
  assert (Hneg : Z.min (-1) (TRR.natoms t0) < 0) by (rewrite Hn; reflexivity).
  exact (conj E (conj Hneg
          (negative_count_fails_at_read 3 two_single_frames t0 (-1) E Hneg))).
Defined.

Lemma fold_max_zeros (l : list Z) :
  Forall (fun z => z = 0) l -> fold_left Z.max l 0 = 0.
Proof. induction 1 as [|x l -> _ IH]; cbn [fold_left]; [reflexivity | exact IH]. Qed.

(** X14: selections that designate nothing are refused at construction
    with the exception of the first operation that trips over them.  On a
    file that indexes, an empty list and an empty index array raise
    ValueError (the maximum of an empty sequence), a mask without a true
    entry and a non-empty list of zeros or [False] raise IndexError (no
    last true entry). *)
Theorem degenerate_selection_raises (fuel : nat) (contents : list byte) (t0 : TRR.t) :
  TRR.__init__ fuel contents default_selection = Some (Ok t0) ->
  TRR.__init__ fuel contents (SelList []) = Some (Raise ValueError) /\
  TRR.__init__ fuel contents (SelArray []) = Some (Raise ValueError) /\
  (forall m, Forall (fun b => b = false) m ->
             TRR.__init__ fuel contents (SelMask m) = Some (Raise IndexError)) /\
  (forall l, l <> [] -> Forall (fun v => int_of v = 0) l ->
             TRR.__init__ fuel contents (SelList l) = Some (Raise IndexError)).
Proof.
  intros H0. repeat apply conj.
  - rewrite (init_resolve fuel contents (SelList []) t0 H0). reflexivity.
  - rewrite (init_resolve fuel contents (SelArray []) t0 H0). reflexivity.
  - intros m Hm. rewrite (init_resolve fuel contents (SelMask m) t0 H0).
    cbn [TRR.resolve]. unfold where_last.
    rewrite nonzero_from_zeros; [reflexivity|].
    apply Forall_map. eapply Forall_impl; [|exact Hm]. cbv beta. now intros b ->.
  - intros l Hne Hz. rewrite (init_resolve fuel contents (SelList l) t0 H0).
    assert (Hzl : Forall (fun z => z = 0) (map int_of l)) by (apply Forall_map; exact Hz).
    cbn [TRR.resolve]. unfold where_last.
    rewrite (nonzero_from_zeros _ Hzl).
    destruct l as [|v l]; [congruence|].
    cbn [map py_max]. inversion Hzl as [|? ? Hv Hl]; subst.
    rewrite Hv, (fold_max_zeros _ Hl). reflexivity.
Qed.

Lemma degenerate_selection_raises_witness :
  exists t0,
    TRR.__init__ 3 two_single_frames default_selection = Some (Ok t0) /\
    TRR.__init__ 3 two_single_frames (SelList []) = Some (Raise ValueError) /\
    TRR.__init__ 3 two_single_frames (SelArray []) = Some (Raise ValueError) /\
    (forall m, Forall (fun b => b = false) m ->
               TRR.__init__ 3 two_single_frames (SelMask m) = Some (Raise IndexError)) /\
    (forall l, l <> [] -> Forall (fun v => int_of v = 0) l ->
               TRR.__init__ 3 two_single_frames (SelList l) = Some (Raise IndexError)).
Proof.
  assert (E : exists t0,
             TRR.__init__ 3 two_single_frames default_selection = Some (Ok t0))
    by (vm_compute; eexists; reflexivity).
  destruct E as (t0 & E). exists t0.
  exact (conj E (degenerate_selection_raises 3 two_single_frames t0 E)).
Defined.

(** X15: a boolean mask, though accepted at construction, can never be
    read with: [_maxidx] is the position of its last true entry, so the
    axis read is always shorter than the mask, and no accessor call ever
    returns an array, at any point of the trajectory's life. *)
Theorem mask_selection_unusable (fuel : nat) (contents : list byte)
    (m : list bool) (t : TRR.t) :
  TRR.__init__ fuel contents (SelMask m) = Some (Ok t) ->
  forall t1 b X t', reachable t t1 -> accessor b t1 <> Ok (X, t').
Proof.
  intros H.
  assert (Hfresh : forall b X t', accessor b t <> Ok (X, t')).
  { intros b X t' Ha.
    destruct (init_Ok_inv_TRR _ _ _ _ H) as (_ & _ & _ & _ & _ & _ & Hp & Hv & Hf).
    destruct (accessor_step b t X t' Ha) as (_ & [[_ Hs]|(_ & k & t1 & Hr & _)]).
    - destruct b; cbn [slot] in Hs; congruence.
    - exact (mask_never_read fuel contents m t k X t1 H Hr). }
  assert (Hsame : forall t1, reachable t t1 -> t1 = t).
  { induction 1 as [|t1 b X t' Hreach IH Ha]; [reflexivity|].
    subst t1. exfalso. exact (Hfresh b X t' Ha). }
  intros t1 b X t' Hreach. rewrite (Hsame t1 Hreach). apply Hfresh.
Qed.

Lemma mask_selection_unusable_witness :
  exists t,
    TRR.__init__ 3 two_single_frames (SelMask [true; true]) = Some (Ok t) /\
    TRR._maxidx t = 1 /\
    forall t1 b X t', reachable t t1 -> accessor b t1 <> Ok (X, t').
Proof.
  assert (E : exists t,
             TRR.__init__ 3 two_single_frames (SelMask [true; true]) = Some (Ok t) /\
             TRR._maxidx t = 1)
    by (vm_compute; eexists; split; reflexivity).
  destruct E as (t & E & Hm). exists t.
  exact (conj E (conj Hm
          (mask_selection_unusable 3 two_single_frames [true; true] t E))).
Defined.

(** ** Blocks cut short by the end of the file *)

(** X16: a block of which exactly one atom is left in the file is not
    refused: when [_maxidx > 1] and between 12 and 15 bytes remain at the
    block start, the three items read are broadcast, and the frame stored
    is that one atom repeated [_maxidx] times. *)
Theorem lone_atom_broadcast (m p : Z) (s : stream) (ps : list Z) :
  0 <= p ->
  1 < m ->
  12 <= Z.of_nat (length (data s)) - p < 16 ->
  exists s1,
    data s1 = data s /\
    TRR.read_frames m (p :: ps) s =
    ('(frs, s2) <- TRR.read_frames m ps s1 ;;
     Ok (repeat (map be_f4 (fields 4 3 (skipn (Z.to_nat p) (data s)))) (Z.to_nat m)
           :: frs, s2)).
Proof.
  intros Hp Hm Hleft.
  cbn [TRR.read_frames]. unfold seek.
  replace (p <? 0) with false by (symmetry; apply Z.ltb_ge; lia).
  cbn [bind]. unfold fromfile_f4. cbn [data pos reads].
  set (avail := skipn (Z.to_nat p) (data s)).
  assert (Hav : Z.of_nat (length avail) = Z.of_nat (length (data s)) - p)
    by (subst avail; rewrite length_skipn; lia).
  assert (Hwhole : Z.of_nat (length avail) / 4 = 3).
  { symmetry. apply Z.div_unique with (r := Z.of_nat (length avail) - 12); lia. }
  rewrite Hwhole.
  replace (3 * m <? 0) with false by (symmetry; apply Z.ltb_ge; lia).
  replace (Z.min (3 * m) 3) with 3 by lia.
  change (Z.to_nat 3) with 3%nat.
  set (items := map be_f4 (fields 4 3 avail)).
  assert (Hitems : length items = 3%nat)
    by (subst items; rewrite length_map, fields_length; reflexivity).
  unfold reshape3. rewrite Hitems.
  change (Z.of_nat 3 mod 3 =? 0) with true. change (Nat.div 3 3) with 1%nat.
  cbn [bind rows3].
  rewrite (firstn_all2 (n := 3) items) by lia.
  unfold assign_frame. cbn [length].
  replace (Z.of_nat 1 =? m) with false by (symmetry; apply Z.eqb_neq; lia).
  change (Z.of_nat 1 =? 1) with true. cbn [hd bind].
  eexists. split; [|reflexivity]. reflexivity.
Qed.

Lemma lone_atom_broadcast_witness :
  exists t X t',
    TRR.__init__ 2 (firstn 132 single_frame) default_selection = Some (Ok t) /\
    TRR.natoms t = 2 /\
    0 <= 120 /\ 1 < 2 /\
    12 <= Z.of_nat (length (data (TRR.trr t))) - 120 < 16 /\
    accessor Positions t = Ok (X, t') /\
    frames_data X = [[[16843009; 16843009; 16843009]; [16843009; 16843009; 16843009]]] /\
    exists s1,
      data s1 = data (TRR.trr t) /\
      TRR.read_frames 2 [120] (TRR.trr t) =
      ('(frs, s2) <- TRR.read_frames 2 [] s1 ;;
       Ok (repeat (map be_f4 (fields 4 3 (skipn (Z.to_nat 120) (data (TRR.trr t)))))
                  (Z.to_nat 2) :: frs, s2)).
Proof.
  assert (E : exists t X t',
             TRR.__init__ 2 (firstn 132 single_frame) default_selection = Some (Ok t) /\
             TRR.natoms t = 2 /\
             Z.of_nat (length (data (TRR.trr t))) = 132 /\
             accessor Positions t = Ok (X, t') /\
             frames_data X
             = [[[16843009; 16843009; 16843009]; [16843009; 16843009; 16843009]]])
    by (vm_compute; do 3 eexists; repeat apply conj; reflexivity).
  destruct E as (t & X & t' & E & Hn & Hl & Ha & HX). exists t, X, t'.
  assert (H1 : 0 <= 120) by discriminate.
  assert (H2 : 1 < 2) by reflexivity.
  assert (H3 : 12 <= Z.of_nat (length (data (TRR.trr t))) - 120 < 16)
    by (rewrite Hl; split; [discriminate | reflexivity]).
  exact (conj E (conj Hn (conj H1 (conj H2 (conj H3 (conj Ha (conj HX
          (lone_atom_broadcast 2 120 (TRR.trr t) [] H1 H2 H3)))))))).
Defined.

(** X17: any other block cut short is refused.  When fewer than
    [3 * _maxidx] whole 4-byte items remain at a block start, and not
    exactly three of them, the read loop raises ValueError (the items
    cannot be reshaped to rows of three, or the rows cannot fill the
    frame). *)
Theorem short_block_raises (m p : Z) (s : stream) (ps : list Z) :
  0 <= p ->
  0 <= m ->
  Z.of_nat (length (skipn (Z.to_nat p) (data s))) / 4 < 3 * m ->
  Z.of_nat (length (skipn (Z.to_nat p) (data s))) / 4 <> 3 ->
  TRR.read_frames m (p :: ps) s = Raise ValueError.
Proof.
  intros Hp Hm Hshort Hnot3.
  cbn [TRR.read_frames]. unfold seek.
  replace (p <? 0) with false by (symmetry; apply Z.ltb_ge; lia).
  cbn [bind]. unfold fromfile_f4. cbn [data pos reads].
  set (avail := skipn (Z.to_nat p) (data s)) in *.
  set (n := Z.of_nat (length avail) / 4) in *.
  assert (Hn0 : 0 <= n) by (subst n; apply Z.div_pos; lia).
  replace (3 * m <? 0) with false by (symmetry; apply Z.ltb_ge; lia).
  replace (Z.min (3 * m) n) with n by lia.
  set (items := map be_f4 (fields 4 (Z.to_nat n) avail)).
  assert (Hitems : Z.of_nat (length items) = n)
    by (subst items; rewrite length_map, fields_length; lia).
  unfold reshape3. rewrite Hitems.
  destruct (n mod 3 =? 0) eqn:Emod; [|reflexivity].
  apply Z.eqb_eq in Emod. cbn [bind].
  unfold assign_frame. rewrite rows3_length, Nat2Z.inj_div, Hitems.
  change (Z.of_nat 3) with 3.
  assert (Hdiv : n = 3 * (n / 3)) by (pose proof (Z.div_mod n 3 ltac:(lia)); lia).
  replace (n / 3 =? m) with false by (symmetry; apply Z.eqb_neq; lia).
  replace (n / 3 =? 1) with false by (symmetry; apply Z.eqb_neq; lia).
  reflexivity.
Qed.

Lemma short_block_raises_witness :
  exists t,
    TRR.__init__ 2 (firstn 140 single_frame) default_selection = Some (Ok t) /\
    TRR._maxidx t = 2 /\
    0 <= 120 /\ 0 <= 2 /\
    Z.of_nat (length (skipn (Z.to_nat 120) (data (TRR.trr t)))) / 4 < 3 * 2 /\
    Z.of_nat (length (skipn (Z.to_nat 120) (data (TRR.trr t)))) / 4 <> 3 /\
    accessor Positions t = Raise ValueError /\
    TRR.read_frames 2 [120] (TRR.trr t) = Raise ValueError.
Proof.
  assert (E : exists t,
             TRR.__init__ 2 (firstn 140 single_frame) default_selection = Some (Ok t) /\
             TRR._maxidx t = 2 /\
             Z.of_nat (length (skipn (Z.to_nat 120) (data (TRR.trr t)))) / 4 = 5 /\
             accessor Positions t = Raise ValueError)
    by (vm_compute; eexists; repeat apply conj; reflexivity).
  destruct E as (t & E & Hm & Hl & Ha). exists t.
  assert (H1 : 0 <= 120) by discriminate.
  assert (H2 : 0 <= 2) by discriminate.
  assert (H3 : Z.of_nat (length (skipn (Z.to_nat 120) (data (TRR.trr t)))) / 4 < 3 * 2)
    by (rewrite Hl; reflexivity).
  assert (H4 : Z.of_nat (length (skipn (Z.to_nat 120) (data (TRR.trr t)))) / 4 <> 3)
    by (rewrite Hl; discriminate).
  exact (conj E (conj Hm (conj H1 (conj H2 (conj H3 (conj H4 (conj Ha
          (short_block_raises 2 120 (TRR.trr t) [] H1 H2 H3 H4)))))))).
Defined.

(** * From a well-formed file to its positions *)

(** Construction succeeds once the scan has found a frame. *)
Lemma init_default_total (fuel : nat) (contents : list byte) (s : stream)
    (fr : list Z) (h0 : TRRHeader.t) (hs : list TRRHeader.t) :
  TRR.index_loop fuel (file_size (open contents)) (open contents) 0 [] []
  = Some (Ok (s, fr, h0 :: hs)) ->
  exists t, TRR.__init__ fuel contents default_selection = Some (Ok t).
Proof.
  intros H. unfold TRR.__init__. rewrite H.
  unfold TRR.geometry. rewrite transpose3_headers.
  set (hd := h0 :: hs).
  change (getitem hd 0) with (Ok h0).
  change (getitem [map TRRHeader.positions hd; map TRRHeader.velocities hd;
                   map TRRHeader.forces hd] 0)
    with (Ok (map TRRHeader.positions hd)).
  change (getitem [map TRRHeader.positions hd; map TRRHeader.velocities hd;
                   map TRRHeader.forces hd] 1)
    with (Ok (map TRRHeader.velocities hd)).
  cbn [bind map iadd_from iadd_at default_selection TRR.resolve]. eauto.
Qed.

Lemma wf_offsets_bounds (contents : list byte) (p : Z) (hs : list TRRHeader.t)
    (c : Z) :
  well_formed contents p hs ->
  Forall (fun h => TRRHeader.double h = false /\ c <= TRRHeader.fsize h) hs ->
  Forall (fun o => 0 <= o /\ o + 84 + c <= Z.of_nat (length contents))
         (offsets_from p hs).
Proof.
  induction 1 as [|p h s0 hs Hp Hi Hnn Hna Hfit Hwf IH]; intros Hs;
    cbn [offsets_from]; [constructor|].
  inversion Hs as [|? ? [Hsingle Hc] Hs']; subst.
  rewrite (single_advance _ _ _ _ _ Hp Hi Hsingle).
  constructor; [|apply IH; assumption].
  unfold frame_length in Hfit. rewrite Hsingle in Hfit. lia.
Qed.

(** X18: reading the positions of a well-formed file.  On single-precision
    frames laid end to end, each carrying positions and each with room for
    the box and for the positions of [natoms] atoms (the atom count of the
    first frame), construction with the default selection succeeds and the
    positions accessor returns an array of shape (frames, natoms, 3): frame
    [i] is the [natoms] rows of three big-endian 4-byte items found 120
    bytes after the [i]-th frame offset. *)
Theorem positions_of_well_formed (contents : list byte)
    (h0 : TRRHeader.t) (hs : list TRRHeader.t) :
  well_formed contents 0 (h0 :: hs) ->
  Forall (fun h => TRRHeader.double h = false /\
                   TRRHeader.positions h <> 0 /\
                   36 + 12 * TRRHeader.natoms h0 <= TRRHeader.fsize h) (h0 :: hs) ->
  forall fuel, (length (h0 :: hs) < fuel)%nat ->
  exists t t',
    TRR.__init__ fuel contents default_selection = Some (Ok t) /\
    TRR.frames t = offsets_from 0 (h0 :: hs) /\
    TRR.headers t = h0 :: hs /\
    accessor Positions t
    = Ok ({| axis1 := TRRHeader.natoms h0;
             frames_data :=
               map (fun o => decode_block contents (TRRHeader.natoms h0) (o + 120))
                   (offsets_from 0 (h0 :: hs)) |}, t').
Proof.
  intros Hwf Hall fuel Hfuel.
  assert (Hsingle : Forall (fun h => TRRHeader.double h = false) (h0 :: hs))
    by (eapply Forall_impl; [|exact Hall]; cbv beta; tauto).
  destruct (index_loop_wf contents 0 (h0 :: hs) Hwf Hsingle fuel (open contents)
              [] [] eq_refl Hfuel) as (s' & Hloop).
  cbn [app] in Hloop.
  destruct (init_default_total fuel contents s' _ h0 hs Hloop) as (t & Ht).
  destruct (init_Ok_inv_TRR _ _ _ _ Ht) as (h0' & Hl & _ & _ & _ & Hres & _).
  unfold file_size in Hloop. cbn [open data] in Hloop.
  unfold file_size in Hl. cbn [open data] in Hl.
  rewrite Hloop in Hl. injection Hl as Htrr Hfr Hhd.
  destruct (geometry_rows _ _ _ _ Ht) as (h0'' & Hh0 & Hn & _ & Hrows).
  rewrite <- Hhd in Hh0. cbn in Hh0. injection Hh0 as <-.
  destruct (Hrows Positions) as (_ & Hv & row & Hr & Hrl & Hrow).
  specialize (Hrow eq_refl). cbn [block_index declared_size] in Hv, Hr.
  cbn [default_selection TRR.resolve] in Hres. injection Hres as Hsel Hm.
  assert (Hn0 : 0 < TRRHeader.natoms h0) by (inversion Hwf; assumption).
  assert (Hh120 : TRRHeader.hsize h0 = 120).
  { inversion Hwf as [|? ? s0 ? Hp Hi _ _ _ _]; subst.
    destruct (init_Ok_inv {| data := contents; pos := 0; reads := [] |} _ _ Hp Hi)
      as (_ & _ & _ & _ & _ & _ & _ & _ & Hh & _).
    inversion Hsingle as [|? ? Hd _]; subst. now rewrite Hh, Hd. }
  assert (Hdata : data (TRR.trr t) = contents).
  { rewrite <- Htrr.
    apply (index_loop_reads _ _ _ _ _ _ _ _ _ Hloop). constructor. }
  pose proof (fresh_accessor_read _ _ _ _ Positions Ht) as Hacc.
  cbn [block_index] in Hacc. unfold TRR._read in Hacc.
  rewrite Hv, Hr in Hacc. cbn [bind] in Hacc.
  rewrite <- Hm, Hn in Hacc.
  replace (TRRHeader.natoms h0 <? 0) with false in Hacc
    by (symmetry; apply Z.ltb_ge; lia).
  rewrite compress_all in Hacc.
  2:{ apply Forall_map. rewrite <- Hhd. eapply Forall_impl; [|exact Hall].
      cbv beta. intros h (_ & Hx & _). apply negb_true_iff, Z.eqb_neq. exact Hx. }
  2:{ rewrite length_map. congruence. }
  assert (Hin : Forall (fun p => 0 <= p /\
                   p + 4 * (3 * TRRHeader.natoms h0) <= Z.of_nat (length contents)) row).
  { rewrite Hrow, Hh120, <- Hfr. apply Forall_map.
    eapply Forall_impl;
      [|apply (wf_offsets_bounds contents 0 (h0 :: hs)
                 (36 + 12 * TRRHeader.natoms h0) Hwf)].
    - cbv beta. intros o [Ho1 Ho2]. lia.
    - eapply Forall_impl; [|exact Hall]. cbv beta. tauto. }
  destruct (read_frames_full contents (TRRHeader.natoms h0) ltac:(lia) row
              (TRR.trr t) Hdata Hin) as (s1 & Hrf & _ & _).
  rewrite Hrf in Hacc. cbn [bind] in Hacc.
  rewrite <- Hsel in Hacc. change (SelSlice None None None) with default_selection in Hacc.
  rewrite index_axis1_default in Hacc.
  2:{ lia. }
  2:{ apply Forall_map, Forall_forall. intros p _.
      apply (decode_block_shape contents (TRRHeader.natoms h0) p). lia. }
  cbn [bind] in Hacc. destruct Hacc as (t' & Ha & _).
  exists t, t'. split; [exact Ht|]. split; [exact (eq_sym Hfr)|].
  split; [exact (eq_sym Hhd)|].
  rewrite Ha, Hrow, Hh120, map_map.
  rewrite <- (eq_sym Hfr : TRR.frames t = offsets_from 0 (h0 :: hs)).
  reflexivity.
Qed.

Lemma positions_of_well_formed_witness :
  well_formed two_single_frames 0 [single_header; single_header] /\
  Forall (fun h => TRRHeader.double h = false /\
                   TRRHeader.positions h <> 0 /\
                   36 + 12 * TRRHeader.natoms single_header <= TRRHeader.fsize h)
         [single_header; single_header] /\
  exists t t',
    TRR.__init__ 3 two_single_frames default_selection = Some (Ok t) /\
    TRR.frames t = offsets_from 0 [single_header; single_header] /\
    TRR.headers t = [single_header; single_header] /\
    accessor Positions t
    = Ok ({| axis1 := TRRHeader.natoms single_header;
             frames_data :=
               map (fun o => decode_block two_single_frames
                               (TRRHeader.natoms single_header) (o + 120))
                   (offsets_from 0 [single_header; single_header]) |}, t').
Proof.
  assert (H2 : Forall (fun h => TRRHeader.double h = false /\
                   TRRHeader.positions h <> 0 /\
                   36 + 12 * TRRHeader.natoms single_header <= TRRHeader.fsize h)
                 [single_header; single_header])
    by (repeat constructor; discriminate).
  exact (conj two_single_frames_wf (conj H2
          (positions_of_well_formed two_single_frames single_header [single_header]
             two_single_frames_wf H2 3%nat (le_n 3)))).
Defined.

(** * Decoding a header written in the documented layout *)

Lemma byte_val_byte_of (z : Z) : byte_val (byte_of z) = z mod 256.
Proof.
  unfold byte_val, byte_of.
  pose proof (Z.mod_pos_bound z 256 ltac:(lia)) as Hm.
  destruct (Byte.of_N (Z.to_N (z mod 256))) as [b|] eqn:E.
  - apply Byte.to_of_N in E. rewrite E. lia.
  - apply Byte.of_N_None_iff in E. lia.
Qed.

Lemma be_int32_enc32 (z : Z) :
  -2147483648 <= z < 2147483648 -> be_int32 (enc32 z) = z.
Proof.
  intros Hz. unfold be_int32, be_unsigned, enc32. cbn [fold_left].
  rewrite !byte_val_byte_of.
  replace (z / 65536) with (z / 256 / 256) by (rewrite Z.div_div by lia; reflexivity).
  replace (z / 16777216) with (z / 256 / 256 / 256)
    by (rewrite !Z.div_div by lia; reflexivity).
  set (q1 := z / 256). set (q2 := q1 / 256). set (q3 := q2 / 256).
  pose proof (Z.div_mod z 256 ltac:(lia)) as E0.
  pose proof (Z.div_mod q1 256 ltac:(lia)) as E1.
  pose proof (Z.div_mod q2 256 ltac:(lia)) as E2.
  pose proof (Z.div_mod q3 256 ltac:(lia)) as E3.
  pose proof (Z.mod_pos_bound z 256 ltac:(lia)) as B0.
  pose proof (Z.mod_pos_bound q1 256 ltac:(lia)) as B1.
  pose proof (Z.mod_pos_bound q2 256 ltac:(lia)) as B2.
  pose proof (Z.mod_pos_bound q3 256 ltac:(lia)) as B3.
  fold q1 in E0. fold q2 in E1. fold q3 in E2.
  assert (Hq3 : -128 <= q3 < 128) by lia.
  assert (Hr3 : q3 mod 256 = if q3 <? 0 then q3 + 256 else q3).
  { destruct (q3 <? 0) eqn:E; [apply Z.ltb_lt in E | apply Z.ltb_ge in E].
    - symmetry. apply Z.mod_unique with (q := -1); lia.
    - apply Z.mod_small; lia. }
  rewrite Hr3.
  destruct (q3 <? 0) eqn:E; [apply Z.ltb_lt in E | apply Z.ltb_ge in E].
  - replace (2147483648 <=? _) with true by (symmetry; apply Z.leb_le; lia). lia.
  - replace (2147483648 <=? _) with false by (symmetry; apply Z.leb_gt; lia). lia.
Qed.

Lemma fields_enc32 (l : list Z) (rest : list byte) :
  fields 4 (length l) (concat (map enc32 l) ++ rest) = map enc32 l.
Proof.
  induction l as [|z l IH]; [reflexivity|].
  cbn [length map concat fields]. rewrite <- app_assoc.
  change (firstn 4 (enc32 z ++ concat (map enc32 l) ++ rest)) with (enc32 z).
  change (skipn 4 (enc32 z ++ concat (map enc32 l) ++ rest))
    with (concat (map enc32 l) ++ rest).
  now rewrite IH.
Qed.

Lemma length_concat_enc32 (l : list Z) :
  length (concat (map enc32 l)) = (4 * length l)%nat.
Proof.
  induction l as [|z l IH]; [reflexivity|].
  cbn [map concat]. rewrite length_app, IH. cbn [length enc32]. lia.
Qed.

Lemma header_ints_layout (pre : list byte) (ints : list Z) (tail : list byte) :
  length pre = 24%nat -> length ints = 13%nat ->
  Forall (fun z => -2147483648 <= z < 2147483648) ints ->
  header_ints (open (pre ++ concat (map enc32 ints) ++ tail)) = ints.
Proof.
  intros Hpre Hlen Hall. unfold header_ints. cbn [open data pos].
  change (Z.to_nat 0) with 0%nat. rewrite skipn_O.
  pose proof (length_concat_enc32 ints) as Hc.
  rewrite firstn_app, Hpre.
  rewrite (firstn_all2 (n := 76) pre) by lia.
  change (76 - 24)%nat with 52%nat.
  rewrite (skipn_prefix pre _ 24 Hpre).
  rewrite firstn_app, (firstn_all2 (n := 52)) by lia.
  replace (52 - length (concat (map enc32 ints)))%nat with 0%nat by lia.
  rewrite firstn_O.
  replace 13%nat with (length ints) by exact Hlen.
  rewrite fields_enc32, map_map.
  clear Hlen Hc. induction Hall as [|z l Hz _ IH]; [reflexivity|].
  cbn [map]. now rewrite be_int32_enc32, IH.
Qed.

(** X19: decoding undoes the documented layout.  A header written as a
    24-byte identification, thirteen big-endian 32-bit integers (sizes of
    the records, atom count, step, NRE) and at least sixteen more bytes
    decodes, when the atom count is not zero, to exactly those integers:
    [positions], [velocities], [forces], [natoms] and [step] are the
    integers at places 7 to 11, the tag is the first eight bytes, time and
    lambda are the next two reals of the detected width, and the stream
    stops just after them. *)
Theorem header_round_trip (pre : list byte) (ints : list Z) (tail : list byte) :
  length pre = 24%nat ->
  length ints = 13%nat ->
  Forall (fun z => -2147483648 <= z < 2147483648) ints ->
  nth 10 ints 0 <> 0 ->
  (16 <= length tail)%nat ->
  let dbl := Z.max (Z.max (nth 7 ints 0) (nth 8 ints 0)) (nth 9 ints 0)
             / nth 10 ints 0 / 3 =? 8 in
  let w := if dbl then 8%nat else 4%nat in
  exists s',
    TRRHeader.__init__ (open (pre ++ concat (map enc32 ints) ++ tail))
    = Ok (TRRHeader.mk (firstn 8 pre) ints (nth 11 ints 0) dbl
            (nth 7 ints 0) (nth 8 ints 0) (nth 9 ints 0) (nth 10 ints 0)
            (firstn w tail) (firstn w (skipn w tail))
            (py_sum (firstn 10 ints))
            (Z.max (Z.max (nth 7 ints 0) (nth 8 ints 0)) (nth 9 ints 0))
            (if dbl then 164 else 120), s') /\
    pos s' = 76 + 2 * Z.of_nat w.
Proof.
  intros Hpre Hlen Hall Hn Htail dbl w.
  set (contents := pre ++ concat (map enc32 ints) ++ tail).
  pose proof (length_concat_enc32 ints) as Hc.
  assert (Hsize : length contents = (76 + length tail)%nat)
    by (subst contents; rewrite !length_app; lia).
  assert (Hp : (76 <= remaining (open contents))%nat)
    by (unfold remaining; cbn [open data pos]; change (Z.to_nat 0) with 0%nat;
        rewrite skipn_O; lia).
  rewrite (init_after_prefix (open contents) Hp).
  unfold declared_natoms, declared_double.
  subst contents. rewrite (header_ints_layout pre ints tail Hpre Hlen Hall).
  fold dbl. apply Z.eqb_neq in Hn. rewrite Hn. cbv zeta.
  set (contents := pre ++ concat (map enc32 ints) ++ tail) in *.
  assert (Htag : getslice (fst (read 76 (open contents))) 0 8 = firstn 8 pre).
  { rewrite getslice_head8.
    - unfold read; cbn [fst open data pos]. change (Z.to_nat 0) with 0%nat.
      rewrite skipn_O, firstn_firstn. change (Nat.min 8 (Z.to_nat 76)) with 8%nat.
      subst contents. rewrite firstn_app, Hpre. change (8 - 24)%nat with 0%nat.
      rewrite firstn_O. apply app_nil_r.
    - unfold read; cbn [fst open data pos]. rewrite length_firstn.
      change (Z.to_nat 0) with 0%nat. rewrite skipn_O.
      change (Z.to_nat 76) with 76%nat. lia. }
  rewrite Htag.
  assert (Hskip : skipn 76 contents = tail).
  { subst contents. rewrite app_assoc. apply skipn_prefix.
    rewrite length_app. lia. }
  assert (Hrd : forall n : nat, (n <= 16)%nat ->
            read (Z.of_nat n) (snd (read 76 (open contents)))
            = (firstn n tail,
               {| data := contents; pos := 76 + Z.of_nat n;
                  reads := [(0, 76); (76, Z.of_nat n)] |})).
  { intros n Hn16. unfold read at 1.
    rewrite (s1_pos (open contents) Hp).
    unfold read; cbn [snd open data pos reads app].
    change (Z.to_nat (0 + 76)) with 76%nat. rewrite Nat2Z.id, Hskip.
    rewrite length_firstn.
    replace (Nat.min n (length tail)) with n by lia. reflexivity. }
  subst w. destruct dbl.
  - change 16 with (Z.of_nat 16). rewrite (Hrd 16%nat (le_n 16)).
    unfold unpack_2f. rewrite length_firstn.
    replace (Nat.min 16 (length tail)) with 16%nat by lia.
    change (Nat.eqb 16 (2 * 8)) with true. cbn [bind].
    rewrite firstn_firstn. change (Nat.min 8 16) with 8%nat.
    rewrite skipn_firstn_comm. change (16 - 8)%nat with 8%nat.
    eexists. split; reflexivity.
  - change 8 with (Z.of_nat 8) at 1. rewrite (Hrd 8%nat ltac:(lia)).
    unfold unpack_2f. rewrite length_firstn.
    replace (Nat.min 8 (length tail)) with 8%nat by lia.
    change (Nat.eqb 8 (2 * 4)) with true. cbn [bind].
    rewrite firstn_firstn. change (Nat.min 4 8) with 4%nat.
    rewrite skipn_firstn_comm. change (8 - 4)%nat with 4%nat.
    eexists. split; reflexivity.
Qed.

Lemma header_round_trip_witness :
  let pre := enc32 1993 ++ enc32 13 ++ enc32 12 ++ zeros 12 in
  let ints := [0; 0; 72; 0; 0; 0; 0; 48; 0; 48; 2; 7; 0] in
  let tail := repeat x01 16 in
  length pre = 24%nat /\
  length ints = 13%nat /\
  Forall (fun z => -2147483648 <= z < 2147483648) ints /\
  nth 10 ints 0 <> 0 /\
  (16 <= length tail)%nat /\
  exists s',
    TRRHeader.__init__ (open (pre ++ concat (map enc32 ints) ++ tail))
    = Ok (TRRHeader.mk (firstn 8 pre) ints 7 true 48 0 48 2
            (repeat x01 8) (repeat x01 8) 168 48 164, s') /\
    pos s' = 76 + 2 * Z.of_nat 8.
Proof.
  intros pre ints tail.
  assert (H1 : length pre = 24%nat) by reflexivity.
  assert (H2 : length ints = 13%nat) by reflexivity.
  assert (H3 : Forall (fun z => -2147483648 <= z < 2147483648) ints)
    by (repeat constructor; discriminate).
  assert (H4 : nth 10 ints 0 <> 0) by discriminate.
  assert (H5 : (16 <= length tail)%nat) by (apply Nat.leb_le; reflexivity).
  exact (conj H1 (conj H2 (conj H3 (conj H4 (conj H5
          (header_round_trip pre ints tail H1 H2 H3 H4 H5)))))).
Defined.
